(** * currencycloud/http.py : the [Http] transport mixin

    A shallow embedding of [src/currencycloud/http.py] and the properties
    of its two public operations, [get] and [post].

    Python objects that are shared by reference are kept in one [World]:
    the [Config] object, the store of parameter dictionaries, and the
    history of calls made to the two external collaborators (the transport
    session and [Config.reauthenticate]).  A method of the class is a
    computation in a state-and-exception monad over that world. *)

From Stdlib Require Import ZArith Lia.
From stdpp Require Import base option list strings gmap.

Local Open Scope Z_scope.
Local Open Scope string_scope.
Local Open Scope list_scope.

(** ** Values *)

(** Values held in a parameter mapping. *)
Inductive pyval : Type :=
  | PNone
  | PBool (b : bool)
  | PInt (z : Z)
  | PStr (s : string).

(** What [response.json()] decodes to. *)
#[local] Unset Elimination Schemes.
Inductive Json : Type :=
  | JNull
  | JBool (b : bool)
  | JNum (z : Z)
  | JStr (s : string)
  | JArr (items : list Json)
  | JObj (fields : list (string * Json)).
#[local] Set Elimination Schemes.

(** A reference to a dictionary object in the store. *)
Definition loc : Type := nat.

(** The transport's response: [response.status_code] and the value that
    [response.json()] returns (a body that does not decode is outside this
    development). *)
Record Response : Type := mkResponse {
  status_code : Z;
  json : Json
}.

(** The fields of [Config] that [http.py] reads. *)
Record Config : Type := mkConfig {
  environment : string;
  auth_token : string;
  on_behalf_of : option string
}.

Inductive Verb : Type := GET | POST.

(** One call to a collaborator.  A request records the arguments handed to
    [session.get] / [session.post] (the parameter dictionary as it was at
    that moment) and the response that came back; a re-authentication
    records the configuration it left behind. *)
Inductive Event : Type :=
  | EvRequest (verb : Verb) (url : string) (headers : gmap string string)
              (data : option (gmap string pyval)) (response : Response)
  | EvReauthenticate (after : Config).

Record World : Type := mkWorld {
  config : Config;
  heap : gmap loc (gmap string pyval);
  log : list Event
}.

(** The classes of the [errors] module, which [http.py] only names. *)
Inductive ErrorClass : Type :=
  | BadRequestError
  | AuthenticationError
  | ForbiddenError
  | NotFoundError
  | TooManyRequestsError
  | InternalApplicationError
  | ApiError.

(** [klass(verb, url, params, response)] is kept as the class together
    with its four constructor arguments; [params] is the reference that was
    passed, not a copy. *)
Inductive Exception : Type :=
  | RuntimeError (msg : string)
  | KeyError (key : string)
  | UnboundLocalError (name : string)
  | ApiException (klass : ErrorClass) (verb : string) (url : string)
                 (params : option loc) (response : Response).

Inductive Result (A : Type) : Type :=
  | Return (a : A)
  | Raise (e : Exception).
Arguments Return {A} a.
Arguments Raise {A} e.

(** ** The monad of methods *)

Definition M (A : Type) : Type := World → Result A * World.

Definition ret {A} (a : A) : M A := λ w, (Return a, w).

Definition raise {A} (e : Exception) : M A := λ w, (Raise e, w).

Definition bind {A B} (m : M A) (k : A → M B) : M B :=
  λ w, match m w with
       | (Return a, w') => k a w'
       | (Raise e, w') => (Raise e, w')
       end.

Notation "x <~ m ;; k" := (bind m (λ x, k))
  (at level 100, m at next level, right associativity).

(** ** Collaborators *)

(** The constants of [Config] that key [ENVIRONMENT_URLS]. *)
Class ConfigModule : Type := {
  ENV_PRODUCTION : string;
  ENV_DEMONSTRATION : string;
  ENV_UAT : string
}.

(** The transport session and [Config.reauthenticate].  Both are outside
    [http.py]; each is a function of the history of collaborator calls so
    far and of its arguments, and each is taken to return. *)
Class Collaborators : Type := {
  session_get : list Event → string → gmap string string →
                option (gmap string pyval) → Response;
  session_post : list Event → string → gmap string string →
                 option (gmap string pyval) → Response;
  reauthenticate : list Event → Config → Config
}.

(** ** Reading a trace *)

(** Number of requests, and of re-authentications, in a trace. *)
Fixpoint n_requests (evs : list Event) : nat :=
  match evs with
  | [] => O
  | EvRequest _ _ _ _ _ :: evs' => S (n_requests evs')
  | EvReauthenticate _ :: evs' => n_requests evs'
  end.

Fixpoint n_reauthenticate (evs : list Event) : nat :=
  match evs with
  | [] => O
  | EvRequest _ _ _ _ _ :: evs' => n_reauthenticate evs'
  | EvReauthenticate _ :: evs' => S (n_reauthenticate evs')
  end.

(** The responses received, oldest first. *)
Fixpoint responses (evs : list Event) : list Response :=
  match evs with
  | [] => []
  | EvRequest _ _ _ _ r :: evs' => r :: responses evs'
  | EvReauthenticate _ :: evs' => responses evs'
  end.

(** The configuration in force after a trace, starting from [c]. *)
Fixpoint config_after (c : Config) (evs : list Event) : Config :=
  match evs with
  | [] => c
  | EvRequest _ _ _ _ _ :: evs' => config_after c evs'
  | EvReauthenticate c' :: evs' => config_after c' evs'
  end.

Section Http.
Context `{ConfigModule} `{Collaborators}.

(** *** Primitive effects *)

(** The dictionary a parameter argument denotes: [None] for Python's
    [None], otherwise the object behind the reference. *)
Definition deref (h : gmap loc (gmap string pyval)) (data : option loc) :
    option (gmap string pyval) :=
  match data with
  | None => None
  | Some l => Some (h !!! l)
  end.

(** [self.session.get(url, headers=headers, params=data)] *)
Definition execute_request_get (url : string) (headers : gmap string string)
    (data : option loc) : M Response :=
  λ w, let d := deref (heap w) data in
       let r := session_get (log w) url headers d in
       (Return r,
        mkWorld (config w) (heap w) (log w ++ [EvRequest GET url headers d r])).

(** [self.session.post(url, headers=headers, data=data)] *)
Definition execute_request_post (url : string) (headers : gmap string string)
    (data : option loc) : M Response :=
  λ w, let d := deref (heap w) data in
       let r := session_post (log w) url headers d in
       (Return r,
        mkWorld (config w) (heap w) (log w ++ [EvRequest POST url headers d r])).

(** [self.config.reauthenticate()] *)
Definition config_reauthenticate : M unit :=
  λ w, let c := reauthenticate (log w) (config w) in
       (Return (), mkWorld c (heap w) (log w ++ [EvReauthenticate c])).

(** *** The class body *)

Definition ENVIRONMENT_URLS : gmap string string :=
  <[ENV_UAT := "https://api-uat1.ccycloud.com"]>
    (<[ENV_DEMONSTRATION := "https://devapi.thecurrencycloud.com"]>
       (<[ENV_PRODUCTION := "https://api.thecurrencycloud.com"]> ∅)).

Definition environment_url : M string :=
  λ w, let env := environment (config w) in
       if negb (bool_decide (env ∈ dom ENVIRONMENT_URLS))
       then raise (RuntimeError (env +:+ " is not a valid environment name")) w
       else match ENVIRONMENT_URLS !! env with
            | Some u => ret u w
            | None => raise (KeyError env) w
            end.

Definition build_url (endpoint : string) : M string :=
  base <~ environment_url ;;
  ret (base +:+ endpoint).

Definition handle_on_behalf_of (data : option loc) : M (option loc) :=
  λ w, match on_behalf_of (config w) with
       | Some obo =>
           let '(l, w1) :=
             match data with
             | None =>
                 let l := fresh (dom (heap w)) in
                 (l, mkWorld (config w) (<[l := ∅]> (heap w)) (log w))
             | Some l => (l, w)
             end in
           if negb (bool_decide ("on_behalf_of" ∈ dom (heap w1 !!! l)))
           then (Return (Some l),
                 mkWorld (config w1)
                   (<[l := <["on_behalf_of" := PStr obo]> (heap w1 !!! l)]> (heap w1))
                   (log w1))
           else (Return (Some l), w1)
       | None => (Return data, w)
       end.

Definition build_headers (authenticated : bool) : M (gmap string string) :=
  λ w, if authenticated
       then ret {[ "X-Auth-Token" := auth_token (config w) ]} w
       else ret ∅ w.

Definition HTTP_CODE_TO_ERROR : gmap Z ErrorClass :=
  <[500 := InternalApplicationError]>
    (<[429 := TooManyRequestsError]>
       (<[404 := NotFoundError]>
          (<[403 := ForbiddenError]>
             (<[401 := AuthenticationError]>
                (<[400 := BadRequestError]> ∅))))).

(** [int(response.status_code / 100) == 2]: the module is Python 2 (its
    [import errors] is an implicit relative import), where [/] on integers
    is floor division, [Z.div] here; truncating the true quotient instead
    gives the same test. *)
Definition handle_errors (verb url : string) (params : option loc)
    (response : Response) : M Json :=
  if (status_code response / 100 =? 2)%Z
  then ret (json response)
  else
    let klass := default ApiError (HTTP_CODE_TO_ERROR !! status_code response) in
    raise (ApiException klass verb url params response).

(** The [while retry_count:] loop.  [response] is the local variable of
    that name, [None] while it is still unbound. *)
Fixpoint while_retry_count
    (execute_request : string → gmap string string → option loc → M Response)
    (retry : bool) (url : string) (data : option loc) (authenticated : bool)
    (retry_count : nat) (response : option Response)
    (headers : gmap string string) : M Response :=
  match retry_count with
  | O =>
      match response with
      | Some r => ret r
      | None => raise (UnboundLocalError "response")
      end
  | S retry_count' =>
      r <~ execute_request url headers data ;;
      if negb (status_code r =? 401)%Z
      then ret r
      else if retry
           then _ <~ config_reauthenticate ;;
                headers' <~ build_headers authenticated ;;
                while_retry_count execute_request retry url data authenticated
                  retry_count' (Some r) headers'
           else while_retry_count execute_request retry url data authenticated
                  retry_count' (Some r) headers
  end.

Definition handle_authentication_errors
    (execute_request : string → gmap string string → option loc → M Response)
    (retry : bool) (url : string) (headers : gmap string string)
    (data : option loc) (authenticated : bool) : M Response :=
  let retry_count := if retry then 3%nat else 1%nat in
  while_retry_count execute_request retry url data authenticated
    retry_count None headers.

Definition get (endpoint : string) (query : option loc)
    (authenticated retry : bool) : M Json :=
  url <~ build_url endpoint ;;
  query <~ handle_on_behalf_of query ;;
  headers <~ build_headers authenticated ;;
  response <~ handle_authentication_errors execute_request_get retry url
                headers query authenticated ;;
  handle_errors "get" url query response.

Definition post (endpoint : string) (data : option loc)
    (authenticated retry : bool) : M Json :=
  url <~ build_url endpoint ;;
  data <~ handle_on_behalf_of data ;;
  headers <~ build_headers authenticated ;;
  response <~ handle_authentication_errors execute_request_post retry url
                headers data authenticated ;;
  handle_errors "post" url data response.

(** *** Vocabulary for the statements *)

(** The public operation, its [execute_request] closure, the verb string
    it reports and the session primitive it drives, by verb. *)
Definition call (v : Verb) : string → option loc → bool → bool → M Json :=
  match v with GET => get | POST => post end.

Definition execute_request_of (v : Verb) :
    string → gmap string string → option loc → M Response :=
  match v with GET => execute_request_get | POST => execute_request_post end.

Definition verb_name (v : Verb) : string :=
  match v with GET => "get" | POST => "post" end.

Definition session_call (v : Verb) :
    list Event → string → gmap string string →
    option (gmap string pyval) → Response :=
  match v with GET => session_get | POST => session_post end.

(** The dictionary [__build_headers] returns under configuration [c]. *)
Definition headers_of (authenticated : bool) (c : Config) : gmap string string :=
  if authenticated then {[ "X-Auth-Token" := auth_token c ]} else ∅.

(** The attempt bound [3 if retry else 1]. *)
Definition attempts_bound (retry : bool) : nat :=
  if retry then 3%nat else 1%nat.

(** The error kind the specification gives for a status code outside
    200-299, written as the specification words it: one kind per listed
    code, the generic kind for the rest. *)
Definition spec_error_kind (s : Z) : ErrorClass :=
  if (s =? 400)%Z then BadRequestError
  else if (s =? 401)%Z then AuthenticationError
  else if (s =? 403)%Z then ForbiddenError
  else if (s =? 404)%Z then NotFoundError
  else if (s =? 429)%Z then TooManyRequestsError
  else if (s =? 500)%Z then InternalApplicationError
  else ApiError.

(** *** The retry loop as a relation on traces *)

(** What follows a 401 inside the loop: the re-authentication when
    [retry] is set, nothing otherwise. *)
Definition after_401 (retry : bool) (hist : list Event) (c : Config) : list Event :=
  if retry then [EvReauthenticate (reauthenticate hist c)] else [].

(** [loop_trace v retry url d authenticated n c hist evs r]: entering the
    loop with [n] attempts left, configuration [c] and history [hist],
    the collaborator calls made are [evs] and the response in hand at the
    end is [r]. *)
Inductive loop_trace (v : Verb) (retry : bool) (url : string)
    (d : option (gmap string pyval)) (authenticated : bool) :
    nat → Config → list Event → list Event → Response → Prop :=
  | loop_answered n c hist r :
      r = session_call v hist url (headers_of authenticated c) d →
      status_code r ≠ 401 →
      loop_trace v retry url d authenticated (S n) c hist
        [EvRequest v url (headers_of authenticated c) d r] r
  | loop_exhausted c hist r :
      r = session_call v hist url (headers_of authenticated c) d →
      status_code r = 401 →
      loop_trace v retry url d authenticated 1 c hist
        (EvRequest v url (headers_of authenticated c) d r
           :: after_401 retry
                (hist ++ [EvRequest v url (headers_of authenticated c) d r]) c)
        r
  | loop_again n c hist r evs r' :
      r = session_call v hist url (headers_of authenticated c) d →
      status_code r = 401 →
      let req := EvRequest v url (headers_of authenticated c) d r in
      let re := after_401 retry (hist ++ [req]) c in
      loop_trace v retry url d authenticated (S n) (config_after c re)
        (hist ++ req :: re) evs r' →
      loop_trace v retry url d authenticated (S (S n)) c hist
        (req :: re ++ evs) r'.

(** An event is the one the loop makes when the history is [hist] and
    the configuration [c]. *)
Definition justified (v : Verb) (retry : bool) (url : string)
    (d : option (gmap string pyval)) (authenticated : bool)
    (hist : list Event) (c : Config) (e : Event) : Prop :=
  match e with
  | EvRequest v' url' headers d' r =>
      v' = v ∧ url' = url ∧ headers = headers_of authenticated c ∧ d' = d ∧
      r = session_call v hist url headers d
  | EvReauthenticate c' =>
      retry = true ∧ c' = reauthenticate hist c
  end.

End Http.

(** ** Concrete collaborators, for examples *)

Definition test_module : ConfigModule :=
  {| ENV_PRODUCTION := "prod"; ENV_DEMONSTRATION := "demo"; ENV_UAT := "uat" |}.

Definition scripted_response (codes : list Z) (hist : list Event) : Response :=
  let code := nth (n_requests hist) codes 200 in
  mkResponse code (JNum code).

Definition scripted (codes : list Z) : Collaborators :=
  {| session_get := λ hist _ _ _, scripted_response codes hist;
     session_post := λ hist _ _ _, scripted_response codes hist;
     reauthenticate := λ _ c,
       mkConfig (environment c) (auth_token c +:+ "+") (on_behalf_of c) |}.

Definition w_demo : World :=
  mkWorld (mkConfig "demo" "tok" (Some "acct")) {[ 0%nat := {[ "currency" := PStr "GBP" ]} ]} [].


(** ** Basic facts *)

Section HttpFacts.
Context `{ConfigModule} `{Collaborators}.

Lemma n_requests_app (evs1 evs2 : list Event) :
  n_requests (evs1 ++ evs2) = (n_requests evs1 + n_requests evs2)%nat.
Proof.
  induction evs1 as [|[] evs1 IH]; simpl; auto.
Qed.

Lemma n_reauthenticate_app (evs1 evs2 : list Event) :
  n_reauthenticate (evs1 ++ evs2)
  = (n_reauthenticate evs1 + n_reauthenticate evs2)%nat.
Proof.
  induction evs1 as [|[] evs1 IH]; simpl; auto.
Qed.

Lemma responses_app (evs1 evs2 : list Event) :
  responses (evs1 ++ evs2) = responses evs1 ++ responses evs2.
Proof.
  induction evs1 as [|[] evs1 IH]; simpl; auto. by rewrite IH.
Qed.

Lemma config_after_app (c : Config) (evs1 evs2 : list Event) :
  config_after c (evs1 ++ evs2) = config_after (config_after c evs1) evs2.
Proof.
  revert c. induction evs1 as [|[] evs1 IH]; simpl; auto.
Qed.

Lemma build_headers_eq (authenticated : bool) (w : World) :
  build_headers authenticated w = (Return (headers_of authenticated (config w)), w).
Proof. by destruct authenticated. Qed.

Lemma execute_request_eq (v : Verb) url headers data (w : World) :
  execute_request_of v url headers data w
  = let d := deref (heap w) data in
    let r := session_call v (log w) url headers d in
    (Return r,
     mkWorld (config w) (heap w) (log w ++ [EvRequest v url headers d r])).
Proof. by destruct v. Qed.

(** One turn of the loop, as an equation. *)
Lemma while_retry_count_S (v : Verb) retry url data authenticated n response
    headers (w : World) :
  while_retry_count (execute_request_of v) retry url data authenticated
    (S n) response headers w
  = let d := deref (heap w) data in
    let r := session_call v (log w) url headers d in
    let w1 := mkWorld (config w) (heap w)
                (log w ++ [EvRequest v url headers d r]) in
    if (status_code r =? 401)%Z
    then if retry
         then let c := reauthenticate (log w1) (config w1) in
              let w2 := mkWorld c (heap w) (log w1 ++ [EvReauthenticate c]) in
              while_retry_count (execute_request_of v) retry url data
                authenticated n (Some r) (headers_of authenticated c) w2
         else while_retry_count (execute_request_of v) retry url data
                authenticated n (Some r) headers w1
    else (Return r, w1).
Proof.
  cbn [while_retry_count]. unfold bind at 1.
  rewrite execute_request_eq. cbn beta iota zeta.
  destruct (status_code _ =? 401)%Z; cbn [negb]; [|done].
  destruct retry; [|done].
  unfold bind, config_reauthenticate. cbn [config heap log].
  by rewrite build_headers_eq.
Qed.

(** The loop produces a response and a trace that [loop_trace] admits;
    it leaves the store alone, and the configuration is whatever the
    re-authentications in the trace left. *)
Lemma while_retry_count_trace (v : Verb) retry url data authenticated
    (n : nat) response (w : World) :
  ∃ r evs,
    while_retry_count (execute_request_of v) retry url data authenticated
      (S n) response (headers_of authenticated (config w)) w
    = (Return r, mkWorld (config_after (config w) evs) (heap w) (log w ++ evs))
    ∧ loop_trace v retry url (deref (heap w) data) authenticated (S n) (config w)
        (log w) evs r.
Proof.
  revert response w. induction n as [|n IH]; intros response w;
    rewrite while_retry_count_S; cbn zeta;
    set (d := deref (heap w) data);
    set (r := session_call v (log w) url (headers_of authenticated (config w)) d);
    destruct (status_code r =? 401)%Z eqn:E;
    [apply Z.eqb_eq in E | apply Z.eqb_neq in E | apply Z.eqb_eq in E
    | apply Z.eqb_neq in E].
  - exists r. eexists. split; [|by apply loop_exhausted].
    destruct retry; cbn [while_retry_count after_401 config_after];
      unfold ret; cbn [config heap log]; [rewrite <- app_assoc|]; reflexivity.
  - exists r. eexists. split; [|by apply loop_answered]. reflexivity.
  - cbn [config heap log].
    set (req := EvRequest v url (headers_of authenticated (config w)) d r).
    destruct retry.
    + match goal with
      | |- context [while_retry_count _ _ _ _ _ _ _ _ ?w'] =>
          destruct (IH (Some r) w') as (r' & evs & Hrun & Htr)
      end.
      cbn [config heap log] in Hrun, Htr.
      exists r', (req :: after_401 true (log w ++ [req]) (config w) ++ evs).
      split.
      * rewrite Hrun. subst req. cbn [after_401 app config_after].
        rewrite <- !app_assoc. reflexivity.
      * apply loop_again; [done..|]. cbn [after_401 config_after].
        rewrite <- app_assoc in Htr. exact Htr.
    + match goal with
      | |- context [while_retry_count _ _ _ _ _ _ _ _ ?w'] =>
          destruct (IH (Some r) w') as (r' & evs & Hrun & Htr)
      end.
      cbn [config heap log] in Hrun, Htr.
      exists r', (req :: after_401 false (log w ++ [req]) (config w) ++ evs).
      split.
      * rewrite Hrun. subst req. cbn [after_401 app config_after].
        rewrite <- !app_assoc. reflexivity.
      * apply loop_again; [done..|]. cbn [after_401 config_after].
        exact Htr.
  - exists r. eexists. split; [|by apply loop_answered]. reflexivity.
Qed.

(** *** What a loop trace looks like *)

Section LoopTrace.
Variables (v : Verb) (retry : bool) (url : string)
          (d : option (gmap string pyval)) (authenticated : bool).

Lemma after_401_requests hist c :
  n_requests (after_401 retry hist c) = 0%nat.
Proof. by destruct retry. Qed.

Lemma after_401_responses hist c :
  responses (after_401 retry hist c) = [].
Proof. by destruct retry. Qed.

Lemma after_401_reauthenticate hist c :
  n_reauthenticate (after_401 retry hist c) = if retry then 1%nat else 0%nat.
Proof. by destruct retry. Qed.

Lemma loop_trace_requests n c hist evs r :
  loop_trace v retry url d authenticated n c hist evs r →
  (1 ≤ n_requests evs ≤ n)%nat.
Proof.
  induction 1 as [ | | n c hist r evs r' Hr H401 req re Htr IH]; cbn.
  - lia.
  - rewrite after_401_requests. lia.
  - rewrite n_requests_app. subst re. rewrite after_401_requests. lia.
Qed.

Lemma loop_trace_last n c hist evs r :
  loop_trace v retry url d authenticated n c hist evs r →
  last (responses evs) = Some r.
Proof.
  induction 1 as [ | | n c hist r evs r' Hr H401 req re Htr IH]; cbn.
  - done.
  - by rewrite after_401_responses.
  - rewrite responses_app. subst re. rewrite after_401_responses. cbn.
    destruct (responses evs); [done|]. exact IH.
Qed.

Lemma loop_trace_earlier_401 n c hist evs r :
  loop_trace v retry url d authenticated n c hist evs r →
  ∀ (i : nat) (r0 : Response),
    responses evs !! i = Some r0 → (S i < n_requests evs)%nat →
    status_code r0 = 401.
Proof.
  induction 1 as [ | | n c hist r evs r' Hr H401 req re Htr IH];
    cbn; intros i r0 Hi Hlt.
  - lia.
  - rewrite after_401_requests in Hlt. lia.
  - rewrite responses_app in Hi. rewrite n_requests_app in Hlt.
    subst re. rewrite after_401_responses in Hi.
    rewrite after_401_requests in Hlt. cbn in Hi, Hlt.
    destruct i as [|i]; cbn in Hi.
    + congruence.
    + apply (IH i); [done|lia].
Qed.

Lemma loop_trace_exhausted n c hist evs r :
  loop_trace v retry url d authenticated n c hist evs r →
  status_code r = 401 → n_requests evs = n.
Proof.
  induction 1 as [ | | n c hist r evs r' Hr H401 req re Htr IH];
    cbn; intros Hs.
  - done.
  - by rewrite after_401_requests.
  - rewrite n_requests_app. subst re. rewrite after_401_requests.
    cbn. by rewrite IH.
Qed.

Lemma loop_trace_reauthenticate n c hist evs r :
  loop_trace v retry url d authenticated n c hist evs r →
  n_reauthenticate evs
  = if retry
    then if (status_code r =? 401)%Z
         then n_requests evs
         else (n_requests evs - 1)%nat
    else 0%nat.
Proof.
  induction 1 as [n c hist r Hr Hs | c hist r Hr Hs
                 | n c hist r evs r' Hr H401 req re Htr IH]; cbn.
  - apply Z.eqb_neq in Hs. rewrite Hs. by destruct retry.
  - apply Z.eqb_eq in Hs. rewrite Hs.
    rewrite after_401_reauthenticate, after_401_requests.
    by destruct retry.
  - rewrite n_reauthenticate_app, n_requests_app. subst re.
    rewrite after_401_reauthenticate, after_401_requests, IH.
    apply loop_trace_requests in Htr.
    destruct retry; [|done]. destruct (status_code r' =? 401)%Z; lia.
Qed.

(** A response other than 401 ends the trace: nothing, in particular
    no re-authentication, follows the request that received it. *)
Lemma loop_trace_answered_last n c hist evs r :
  loop_trace v retry url d authenticated n c hist evs r →
  status_code r ≠ 401 →
  ∃ headers, last evs = Some (EvRequest v url headers d r).
Proof.
  induction 1 as [n c hist r Hr Hs | c hist r Hr Hs
                 | n c hist r evs r' Hr H401 req re Htr IH]; intros Hne.
  - by eexists.
  - done.
  - destruct (IH Hne) as [headers Hlast]. exists headers.
    change (req :: re ++ evs) with ((req :: re) ++ evs).
    rewrite last_app, Hlast. done.
Qed.

(** Every event of the trace is the one the loop makes at that point. *)
Lemma loop_trace_justified n c hist evs r :
  loop_trace v retry url d authenticated n c hist evs r →
  ∀ (i : nat) (e : Event), evs !! i = Some e →
    justified v retry url d authenticated
      (hist ++ take i evs) (config_after c (take i evs)) e.
Proof.
  induction 1 as [n c hist r Hr Hs | c hist r Hr Hs
                 | n c hist r evs r' Hr H401 req re Htr IH]; intros i e Hi.
  - destruct i as [|i]; cbn in Hi; [|by destruct i].
    inversion Hi; subst e. cbn. rewrite app_nil_r. done.
  - destruct i as [|i]; cbn in Hi.
    + inversion Hi; subst e. cbn. rewrite app_nil_r. done.
    + destruct retry; cbn in Hi; [|by destruct i].
      destruct i as [|i]; cbn in Hi; [|by destruct i].
      inversion Hi; subst e. cbn. done.
  - destruct i as [|i]; cbn in Hi.
    + inversion Hi; subst e req. cbn. rewrite app_nil_r. done.
    + subst re. destruct retry; cbn in Hi |- *.
      * destruct i as [|i]; cbn in Hi |- *.
        { inversion Hi; subst e. done. }
        specialize (IH i e Hi). cbn in IH.
        rewrite <- app_assoc in IH. exact IH.
      * specialize (IH i e Hi). cbn in IH.
        rewrite <- app_assoc in IH. exact IH.
Qed.

(** With [retry] set, a request answered 401 is followed at once by a
    re-authentication. *)
Lemma loop_trace_401_reauthenticates n c hist evs r :
  loop_trace v retry url d authenticated n c hist evs r →
  retry = true →
  ∀ (i : nat) v' url' headers d' (r0 : Response),
    evs !! i = Some (EvRequest v' url' headers d' r0) →
    status_code r0 = 401 →
    ∃ c', evs !! S i = Some (EvReauthenticate c').
Proof.
  induction 1 as [n c hist r Hr Hs | c hist r Hr Hs
                 | n c hist r evs r' Hr H401 req re Htr IH];
    intros -> i v' url' headers d' r0 Hi Hs0.
  - destruct i as [|i]; cbn in Hi; [|by destruct i].
    inversion Hi; subst. done.
  - destruct i as [|i]; cbn in Hi |- *; [by eexists|].
    destruct i as [|i]; cbn in Hi; [done|by destruct i].
  - subst re. destruct i as [|i]; cbn in Hi |- *; [by eexists|].
    destruct i as [|i]; cbn in Hi |- *; [done|].
    by eapply IH.
Qed.

(** Reading a trace forwards, one attempt at a time. *)
Lemma loop_trace_step_answered n c hist evs r :
  loop_trace v retry url d authenticated (S n) c hist evs r →
  status_code (session_call v hist url (headers_of authenticated c) d) ≠ 401 →
  r = session_call v hist url (headers_of authenticated c) d
  ∧ evs = [EvRequest v url (headers_of authenticated c) d r].
Proof.
  inversion 1; subst; intros Hs; [done|congruence..].
Qed.

Lemma loop_trace_step_exhausted c hist evs r :
  loop_trace v retry url d authenticated 1 c hist evs r →
  status_code (session_call v hist url (headers_of authenticated c) d) = 401 →
  r = session_call v hist url (headers_of authenticated c) d
  ∧ evs = EvRequest v url (headers_of authenticated c) d r
            :: after_401 retry
                 (hist ++ [EvRequest v url (headers_of authenticated c) d r]) c.
Proof.
  inversion 1; subst; intros Hs; [congruence|done].
Qed.

Lemma loop_trace_step_again n c hist evs r' :
  loop_trace v retry url d authenticated (S (S n)) c hist evs r' →
  status_code (session_call v hist url (headers_of authenticated c) d) = 401 →
  let r := session_call v hist url (headers_of authenticated c) d in
  let req := EvRequest v url (headers_of authenticated c) d r in
  let re := after_401 retry (hist ++ [req]) c in
  ∃ evs', evs = req :: re ++ evs'
          ∧ loop_trace v retry url d authenticated (S n) (config_after c re)
              (hist ++ req :: re) evs' r'.
Proof.
  inversion 1; subst; intros Hs; [congruence|]. cbn zeta. by eexists.
Qed.

End LoopTrace.

(** *** The loop with three attempts, written out *)

(** With [retry] set, the trace of the loop and the response it ends with
    are decided by the status codes of the responses the transport gives
    to the requests the loop itself makes, one after the other. *)
Lemma loop_trace_three_attempts (v : Verb) url d authenticated c hist evs r :
  loop_trace v true url d authenticated 3 c hist evs r →
  let r1 := session_call v hist url (headers_of authenticated c) d in
  let req1 := EvRequest v url (headers_of authenticated c) d r1 in
  let c1 := reauthenticate (hist ++ [req1]) c in
  let r2 := session_call v (hist ++ [req1; EvReauthenticate c1]) url
              (headers_of authenticated c1) d in
  let req2 := EvRequest v url (headers_of authenticated c1) d r2 in
  let c2 := reauthenticate (hist ++ [req1; EvReauthenticate c1; req2]) c1 in
  let r3 := session_call v
              (hist ++ [req1; EvReauthenticate c1; req2; EvReauthenticate c2])
              url (headers_of authenticated c2) d in
  let req3 := EvRequest v url (headers_of authenticated c2) d r3 in
  let c3 := reauthenticate
              (hist ++ [req1; EvReauthenticate c1; req2; EvReauthenticate c2;
                        req3]) c2 in
  (evs, r)
  = if negb (status_code r1 =? 401)%Z then ([req1], r1)
    else if negb (status_code r2 =? 401)%Z
         then ([req1; EvReauthenticate c1; req2], r2)
    else if negb (status_code r3 =? 401)%Z
         then ([req1; EvReauthenticate c1; req2; EvReauthenticate c2; req3], r3)
    else ([req1; EvReauthenticate c1; req2; EvReauthenticate c2; req3;
           EvReauthenticate c3], r3).
Proof.
  intros Htr r1 req1 c1 r2 req2 c2 r3 req3 c3.
  destruct (Z.eqb_spec (status_code r1) 401) as [Hs1|Hs1]; cbn [negb].
  2: { apply loop_trace_step_answered in Htr as [-> ->]; [|exact Hs1].
       reflexivity. }
  apply loop_trace_step_again in Htr; [|exact Hs1].
  cbn zeta in Htr. destruct Htr as (evs1 & -> & Htr).
  cbn [after_401 config_after app] in Htr. fold r1 req1 c1 in Htr.
  fold r1 req1 c1.
  destruct (Z.eqb_spec (status_code r2) 401) as [Hs2|Hs2]; cbn [negb].
  2: { apply loop_trace_step_answered in Htr as [-> ->]; [|exact Hs2].
       reflexivity. }
  apply loop_trace_step_again in Htr; [|exact Hs2].
  cbn zeta in Htr. destruct Htr as (evs2 & -> & Htr).
  cbn [after_401 config_after app] in Htr. fold r2 req2 in Htr.
  rewrite <- ?app_assoc in Htr. cbn [app] in Htr. fold c2 in Htr.
  cbn [after_401 app]. fold r2 req2. rewrite <- ?app_assoc. cbn [app]. fold c2.
  destruct (Z.eqb_spec (status_code r3) 401) as [Hs3|Hs3]; cbn [negb].
  2: { apply loop_trace_step_answered in Htr as [-> ->]; [|exact Hs3].
       reflexivity. }
  apply loop_trace_step_exhausted in Htr as [-> ->]; [|exact Hs3].
  cbn [after_401]. fold r3 req3. rewrite <- ?app_assoc. cbn [app]. fold c3.
  reflexivity.
Qed.

(** *** The steps of [get] and [post] *)

Lemma ENVIRONMENT_URLS_dom (env : string) :
  env ∈ dom ENVIRONMENT_URLS ↔
  env = ENV_PRODUCTION ∨ env = ENV_DEMONSTRATION ∨ env = ENV_UAT.
Proof.
  unfold ENVIRONMENT_URLS. rewrite !dom_insert_L, dom_empty_L.
  rewrite !elem_of_union, !elem_of_singleton, elem_of_empty. tauto.
Qed.

Lemma environment_url_valid (w : World) :
  environment (config w) ∈ dom ENVIRONMENT_URLS →
  ∃ base, ENVIRONMENT_URLS !! environment (config w) = Some base
          ∧ environment_url w = (Return base, w).
Proof.
  intros Hin. unfold environment_url. cbn zeta.
  rewrite bool_decide_eq_true_2 by done. cbn [negb].
  apply elem_of_dom in Hin as [base Hbase]. exists base.
  by rewrite Hbase.
Qed.

Lemma environment_url_invalid (w : World) :
  environment (config w) ∉ dom ENVIRONMENT_URLS →
  environment_url w
  = (Raise (RuntimeError
              (environment (config w) +:+ " is not a valid environment name")),
     w).
Proof.
  intros Hin. unfold environment_url. cbn zeta.
  by rewrite bool_decide_eq_false_2 by done.
Qed.

(** [__handle_on_behalf_of] always returns, and touches only the store. *)
Lemma handle_on_behalf_of_returns (data : option loc) (w : World) :
  ∃ data' h1,
    handle_on_behalf_of data w = (Return data', mkWorld (config w) h1 (log w)).
Proof.
  unfold handle_on_behalf_of. destruct w as [c h l]; cbn [config heap log].
  destruct (on_behalf_of c) as [obo|]; [|by eexists _, _].
  destruct data as [l0|]; cbn [config heap log];
    match goal with
    | |- context [bool_decide ?P] => destruct (bool_decide P)
    end; cbn [negb]; by eexists _, _.
Qed.

Lemma handle_on_behalf_of_unset (data : option loc) (w : World) :
  on_behalf_of (config w) = None →
  handle_on_behalf_of data w = (Return data, w).
Proof. intros Hc. unfold handle_on_behalf_of. by rewrite Hc. Qed.

Lemma handle_on_behalf_of_absent (obo : string) (w : World) :
  on_behalf_of (config w) = Some obo →
  ∃ l, (l ∉ dom (heap w))
       ∧ handle_on_behalf_of None w
         = (Return (Some l),
            mkWorld (config w)
              (<[l := {[ "on_behalf_of" := PStr obo ]}]> (heap w)) (log w)).
Proof.
  intros Hc. exists (fresh (dom (heap w))). split; [apply is_fresh|].
  unfold handle_on_behalf_of. rewrite Hc. cbn [config heap log].
  rewrite lookup_total_insert_eq, dom_empty_L.
  rewrite bool_decide_eq_false_2 by apply not_elem_of_empty. cbn [negb].
  by rewrite insert_insert_eq, insert_empty.
Qed.

Lemma handle_on_behalf_of_injects (obo : string) (l : loc) (w : World) :
  on_behalf_of (config w) = Some obo →
  "on_behalf_of" ∉ dom (heap w !!! l) →
  handle_on_behalf_of (Some l) w
  = (Return (Some l),
     mkWorld (config w)
       (<[l := <["on_behalf_of" := PStr obo]> (heap w !!! l)]> (heap w))
       (log w)).
Proof.
  intros Hc Hk. unfold handle_on_behalf_of. rewrite Hc.
  by rewrite bool_decide_eq_false_2 by done.
Qed.

Lemma handle_on_behalf_of_keeps (obo : string) (l : loc) (w : World) :
  on_behalf_of (config w) = Some obo →
  "on_behalf_of" ∈ dom (heap w !!! l) →
  handle_on_behalf_of (Some l) w = (Return (Some l), w).
Proof.
  intros Hc Hk. unfold handle_on_behalf_of. rewrite Hc.
  by rewrite bool_decide_eq_true_2 by done.
Qed.

(** [__handle_errors] leaves the world alone. *)
Lemma handle_errors_world verb url params response (w : World) :
  handle_errors verb url params response w
  = (fst (handle_errors verb url params response w), w).
Proof.
  unfold handle_errors. by destruct (_ =? 2)%Z.
Qed.

(** A call under a valid environment, step by step: the URL is resolved,
    the parameters are prepared leaving a store [h1], the loop makes the
    collaborator calls [evs] and ends holding [r], and [r] goes to
    [__handle_errors]. *)
Lemma call_run (v : Verb) endpoint (params : option loc) authenticated retry
    (w : World) (base : string) :
  ENVIRONMENT_URLS !! environment (config w) = Some base →
  ∃ params' h1 r evs,
    handle_on_behalf_of params w
    = (Return params', mkWorld (config w) h1 (log w))
    ∧ loop_trace v retry (base +:+ endpoint) (deref h1 params') authenticated
        (attempts_bound retry) (config w) (log w) evs r
    ∧ handle_authentication_errors (execute_request_of v) retry
        (base +:+ endpoint) (headers_of authenticated (config w)) params'
        authenticated (mkWorld (config w) h1 (log w))
      = (Return r, mkWorld (config_after (config w) evs) h1 (log w ++ evs))
    ∧ call v endpoint params authenticated retry w
      = handle_errors (verb_name v) (base +:+ endpoint) params' r
          (mkWorld (config_after (config w) evs) h1 (log w ++ evs)).
Proof.
  intros Hbase.
  assert (Hin : environment (config w) ∈ dom ENVIRONMENT_URLS)
    by (apply elem_of_dom; eauto).
  destruct (environment_url_valid w Hin) as (base' & Hbase' & Hurl).
  assert (base' = base) as -> by congruence.
  destruct (handle_on_behalf_of_returns params w) as (params' & h1 & Hobo).
  set (w1 := mkWorld (config w) h1 (log w)) in *.
  assert (Hloop : ∃ r evs,
    handle_authentication_errors (execute_request_of v) retry
      (base +:+ endpoint) (headers_of authenticated (config w1)) params'
      authenticated w1
    = (Return r, mkWorld (config_after (config w1) evs) (heap w1) (log w1 ++ evs))
    ∧ loop_trace v retry (base +:+ endpoint) (deref (heap w1) params')
        authenticated (attempts_bound retry) (config w1) (log w1) evs r).
  { unfold handle_authentication_errors, attempts_bound.
    destruct retry; apply while_retry_count_trace. }
  destruct Hloop as (r & evs & Hrun & Htr). cbn [w1 config heap log] in Hrun, Htr.
  exists params', h1, r, evs. repeat split; [done..|].
  destruct v; cbn [call execute_request_of verb_name] in *;
    unfold get, post, build_url;
    unfold bind; rewrite Hurl; unfold ret at 1; rewrite Hobo;
    rewrite build_headers_eq; cbn [config];
    fold w1; change (config w1) with (config w); by rewrite Hrun.
Qed.

Lemma status_2xx (s : Z) :
  (s / 100 =? 2)%Z = (200 <=? s)%Z && (s <=? 299)%Z.
Proof.
  pose proof (Z.div_mod s 100) as Hd.
  pose proof (Z.mod_pos_bound s 100) as Hm.
  destruct (Z.eqb_spec (s / 100) 2), (Z.leb_spec 200 s), (Z.leb_spec s 299);
    cbn; lia.
Qed.

Lemma HTTP_CODE_TO_ERROR_get (s : Z) :
  default ApiError (HTTP_CODE_TO_ERROR !! s) = spec_error_kind s.
Proof.
  unfold HTTP_CODE_TO_ERROR, spec_error_kind.
  rewrite !lookup_insert, lookup_empty.
  repeat case_decide; subst; try reflexivity;
    repeat match goal with
           | |- context [(?a =? ?b)%Z] => destruct (Z.eqb_spec a b); try lia
           end; reflexivity.
Qed.

Lemma handle_errors_eq verb url params response (w : World) :
  handle_errors verb url params response w
  = (if (200 <=? status_code response)%Z && (status_code response <=? 299)%Z
     then Return (json response)
     else Raise (ApiException (spec_error_kind (status_code response))
                   verb url params response),
     w).
Proof.
  unfold handle_errors. rewrite status_2xx, HTTP_CODE_TO_ERROR_get.
  by destruct (_ && _).
Qed.

Lemma call_invalid_environment (v : Verb) endpoint (params : option loc)
    authenticated retry (w : World) :
  environment (config w) ∉ dom ENVIRONMENT_URLS →
  call v endpoint params authenticated retry w
  = (Raise (RuntimeError
              (environment (config w) +:+ " is not a valid environment name")),
     w).
Proof.
  intros Hin.
  destruct v; cbn [call]; unfold get, post, build_url; unfold bind;
    by rewrite environment_url_invalid.
Qed.

(** [call_run], for the dictionary and store that [__handle_on_behalf_of]
    is known to give. *)
Lemma call_run_with (v : Verb) endpoint (params params' : option loc)
    authenticated retry (w : World) (base : string)
    (h1 : gmap loc (gmap string pyval)) :
  ENVIRONMENT_URLS !! environment (config w) = Some base →
  handle_on_behalf_of params w = (Return params', mkWorld (config w) h1 (log w)) →
  ∃ r evs,
    loop_trace v retry (base +:+ endpoint) (deref h1 params') authenticated
      (attempts_bound retry) (config w) (log w) evs r
    ∧ call v endpoint params authenticated retry w
      = handle_errors (verb_name v) (base +:+ endpoint) params' r
          (mkWorld (config_after (config w) evs) h1 (log w ++ evs)).
Proof.
  intros Hbase Hobo.
  destruct (call_run v endpoint params authenticated retry w base Hbase)
    as (params'' & h1' & r & evs & Hobo' & Htr & _ & Hcall).
  rewrite Hobo in Hobo'. injection Hobo' as <- <-. by exists r, evs.
Qed.

(** A call whose first response ends the loop - because [retry] is unset
    or because that response is not a 401 - consists of that one request. *)
Lemma call_first_response_final (v : Verb) endpoint (params params' : option loc)
    authenticated retry (w : World) (base : string)
    (h1 : gmap loc (gmap string pyval)) :
  ENVIRONMENT_URLS !! environment (config w) = Some base →
  handle_on_behalf_of params w = (Return params', mkWorld (config w) h1 (log w)) →
  let url := base +:+ endpoint in
  let r1 := session_call v (log w) url (headers_of authenticated (config w))
              (deref h1 params') in
  retry = false ∨ status_code r1 ≠ 401 →
  call v endpoint params authenticated retry w
  = handle_errors (verb_name v) url params' r1
      (mkWorld (config w) h1
         (log w ++ [EvRequest v url (headers_of authenticated (config w))
                      (deref h1 params') r1])).
Proof.
  intros Hbase Hobo url r1 Hfinal.
  destruct (call_run_with v endpoint params params' authenticated retry w base
              h1 Hbase Hobo) as (r & evs & Htr & Hcall).
  rewrite Hcall. clear Hcall.
  destruct (decide (status_code r1 = 401)) as [Hs|Hs].
  - destruct Hfinal as [->|Hne]; [|contradiction].
    cbn [attempts_bound] in Htr.
    apply loop_trace_step_exhausted in Htr as [-> ->]; [|exact Hs]. reflexivity.
  - assert (Hn : ∃ n, attempts_bound retry = S n) by (destruct retry; by eexists).
    destruct Hn as [n Hn]. rewrite Hn in Htr.
    apply loop_trace_step_answered in Htr as [-> ->]; [|exact Hs]. reflexivity.
Qed.

(** A call with [retry] set, written out over its three possible
    attempts. *)
Lemma call_with_retry (v : Verb) endpoint (params params' : option loc)
    authenticated (w : World) (base : string)
    (h1 : gmap loc (gmap string pyval)) :
  ENVIRONMENT_URLS !! environment (config w) = Some base →
  handle_on_behalf_of params w = (Return params', mkWorld (config w) h1 (log w)) →
  let url := base +:+ endpoint in
  let d := deref h1 params' in
  let r1 := session_call v (log w) url (headers_of authenticated (config w)) d in
  let req1 := EvRequest v url (headers_of authenticated (config w)) d r1 in
  let c1 := reauthenticate (log w ++ [req1]) (config w) in
  let r2 := session_call v (log w ++ [req1; EvReauthenticate c1]) url
              (headers_of authenticated c1) d in
  let req2 := EvRequest v url (headers_of authenticated c1) d r2 in
  let c2 := reauthenticate (log w ++ [req1; EvReauthenticate c1; req2]) c1 in
  let r3 := session_call v
              (log w ++ [req1; EvReauthenticate c1; req2; EvReauthenticate c2])
              url (headers_of authenticated c2) d in
  let req3 := EvRequest v url (headers_of authenticated c2) d r3 in
  let c3 := reauthenticate
              (log w ++ [req1; EvReauthenticate c1; req2; EvReauthenticate c2;
                         req3]) c2 in
  call v endpoint params authenticated true w
  = let '(evs, r) :=
      if negb (status_code r1 =? 401)%Z then ([req1], r1)
      else if negb (status_code r2 =? 401)%Z
           then ([req1; EvReauthenticate c1; req2], r2)
      else if negb (status_code r3 =? 401)%Z
           then ([req1; EvReauthenticate c1; req2; EvReauthenticate c2; req3], r3)
      else ([req1; EvReauthenticate c1; req2; EvReauthenticate c2; req3;
             EvReauthenticate c3], r3) in
    handle_errors (verb_name v) url params' r
      (mkWorld (config_after (config w) evs) h1 (log w ++ evs)).
Proof.
  intros Hbase Hobo url d r1 req1 c1 r2 req2 c2 r3 req3 c3.
  destruct (call_run_with v endpoint params params' authenticated true w base
              h1 Hbase Hobo) as (r & evs & Htr & Hcall).
  cbn [attempts_bound] in Htr.
  apply loop_trace_three_attempts in Htr. cbn zeta in Htr.
  fold url d in Htr. fold r1 req1 c1 r2 req2 c2 r3 req3 c3 in Htr.
  rewrite <- Htr. exact Hcall.
Qed.

End HttpFacts.

(** ** The claims *)

Section HttpClaims.
Context `{ConfigModule} `{Collaborators}.

(** C1.  A call under a valid environment runs the retry loop on the
    resolved URL and the prepared parameters.  The loop makes at least
    one and at most [3 if retry else 1] requests; every request before
    the last was answered 401; the response it returns is the one the
    last request received; if that response is not 401, the request that
    received it is the last collaborator call (no re-authentication
    follows it) and there was one re-authentication per earlier attempt
    when [retry] is set, none otherwise; if it is 401, the attempts are
    exhausted.  That response is the one handed to [__handle_errors]. *)
Theorem retry_loop_bounded_and_last_response_mapped
    (v : Verb) endpoint (params : option loc) authenticated retry
    (w : World) (base : string) :
  ENVIRONMENT_URLS !! environment (config w) = Some base →
  ∃ params' h1 r evs w',
    handle_on_behalf_of params w
    = (Return params', mkWorld (config w) h1 (log w))
    ∧ handle_authentication_errors (execute_request_of v) retry
        (base +:+ endpoint) (headers_of authenticated (config w)) params'
        authenticated (mkWorld (config w) h1 (log w))
      = (Return r, w')
    ∧ log w' = log w ++ evs
    ∧ (1 ≤ n_requests evs ≤ (if retry then 3 else 1))%nat
    ∧ last (responses evs) = Some r
    ∧ (∀ (i : nat) (r0 : Response),
         responses evs !! i = Some r0 → (S i < n_requests evs)%nat →
         status_code r0 = 401)
    ∧ (status_code r ≠ 401 →
         (∃ headers,
            last evs
            = Some (EvRequest v (base +:+ endpoint) headers (deref h1 params') r))
         ∧ n_reauthenticate evs
           = if retry then (n_requests evs - 1)%nat else 0%nat)
    ∧ (status_code r = 401 →
         n_requests evs = if retry then 3%nat else 1%nat)
    ∧ call v endpoint params authenticated retry w
      = handle_errors (verb_name v) (base +:+ endpoint) params' r w'.
Proof.
  intros Hbase.
  destruct (call_run v endpoint params authenticated retry w base Hbase)
    as (params' & h1 & r & evs & Hobo & Htr & Hloop & Hcall).
  exists params', h1, r, evs. eexists.
  split; [exact Hobo|]. split; [exact Hloop|]. cbn [log].
  split; [done|].
  split; [exact (loop_trace_requests _ _ _ _ _ _ _ _ _ _ Htr)|].
  split; [exact (loop_trace_last _ _ _ _ _ _ _ _ _ _ Htr)|].
  split; [exact (loop_trace_earlier_401 _ _ _ _ _ _ _ _ _ _ Htr)|].
  split; [|split; [|exact Hcall]].
  - intros Hne. split.
    + exact (loop_trace_answered_last _ _ _ _ _ _ _ _ _ _ Htr Hne).
    + rewrite (loop_trace_reauthenticate _ _ _ _ _ _ _ _ _ _ Htr).
      apply Z.eqb_neq in Hne. by rewrite Hne.
  - intros Heq. exact (loop_trace_exhausted _ _ _ _ _ _ _ _ _ _ Htr Heq).
Qed.

(** C2, as amended.  Under a valid environment the outcome of a call is
    decided by the status code of the response the loop returns: in
    200-299 the call returns [response.json()]; otherwise it raises the
    error of the kind listed for the code - 400, 401, 403, 404, 429 and
    500 have their own kind, every other code the generic [ApiError] -
    built from the verb, the resolved URL, the prepared parameters and
    that response. *)
Theorem status_code_decides_outcome
    (v : Verb) endpoint (params : option loc) authenticated retry
    (w : World) (base : string) :
  ENVIRONMENT_URLS !! environment (config w) = Some base →
  ∃ params' h1 r w',
    handle_on_behalf_of params w
    = (Return params', mkWorld (config w) h1 (log w))
    ∧ handle_authentication_errors (execute_request_of v) retry
        (base +:+ endpoint) (headers_of authenticated (config w)) params'
        authenticated (mkWorld (config w) h1 (log w))
      = (Return r, w')
    ∧ call v endpoint params authenticated retry w
      = (if (200 <=? status_code r)%Z && (status_code r <=? 299)%Z
         then Return (json r)
         else Raise (ApiException
                       (if (status_code r =? 400)%Z then BadRequestError
                        else if (status_code r =? 401)%Z then AuthenticationError
                        else if (status_code r =? 403)%Z then ForbiddenError
                        else if (status_code r =? 404)%Z then NotFoundError
                        else if (status_code r =? 429)%Z then TooManyRequestsError
                        else if (status_code r =? 500)%Z
                             then InternalApplicationError
                        else ApiError)
                       (verb_name v) (base +:+ endpoint) params' r),
         w').
Proof.
  intros Hbase.
  destruct (call_run v endpoint params authenticated retry w base Hbase)
    as (params' & h1 & r & evs & Hobo & Htr & Hloop & Hcall).
  exists params', h1, r. eexists.
  split; [exact Hobo|]. split; [exact Hloop|].
  rewrite Hcall. apply handle_errors_eq.
Qed.

(** C3, as amended.  With [retry] set, when the transport answers the
    call's first request 401, its second request 401 and its third request
    200, the call makes exactly three requests and two re-authentications,
    in the order request, re-authentication, request, re-authentication,
    request; the headers of each retried request are those
    [__build_headers] gives for the configuration the preceding
    re-authentication left (the token of that configuration when
    [authenticated] is set, no header otherwise); and the call returns the
    decoded body of the third response. *)
Theorem retry_401_401_200
    (v : Verb) endpoint (params params' : option loc) authenticated
    (w : World) (base : string) (h1 : gmap loc (gmap string pyval)) :
  ENVIRONMENT_URLS !! environment (config w) = Some base →
  handle_on_behalf_of params w = (Return params', mkWorld (config w) h1 (log w)) →
  let url := base +:+ endpoint in
  let d := deref h1 params' in
  let r1 := session_call v (log w) url (headers_of authenticated (config w)) d in
  let req1 := EvRequest v url (headers_of authenticated (config w)) d r1 in
  let c1 := reauthenticate (log w ++ [req1]) (config w) in
  let r2 := session_call v (log w ++ [req1; EvReauthenticate c1]) url
              (headers_of authenticated c1) d in
  let req2 := EvRequest v url (headers_of authenticated c1) d r2 in
  let c2 := reauthenticate (log w ++ [req1; EvReauthenticate c1; req2]) c1 in
  let r3 := session_call v
              (log w ++ [req1; EvReauthenticate c1; req2; EvReauthenticate c2])
              url (headers_of authenticated c2) d in
  let req3 := EvRequest v url (headers_of authenticated c2) d r3 in
  let evs := [req1; EvReauthenticate c1; req2; EvReauthenticate c2; req3] in
  status_code r1 = 401 → status_code r2 = 401 → status_code r3 = 200 →
  n_requests evs = 3%nat ∧ n_reauthenticate evs = 2%nat
  ∧ call v endpoint params authenticated true w
    = (Return (json r3), mkWorld c2 h1 (log w ++ evs)).
Proof.
  intros Hbase Hobo url d r1 req1 c1 r2 req2 c2 r3 req3 evs Hs1 Hs2 Hs3.
  split; [reflexivity|]. split; [reflexivity|].
  pose proof (call_with_retry v endpoint params params' authenticated w base h1
                Hbase Hobo) as Hcall.
  cbn zeta in Hcall. fold url d in Hcall. fold r1 req1 c1 r2 req2 c2 r3 req3 in Hcall.
  rewrite Hs1, Hs2, Hs3 in Hcall. cbn [Z.eqb Pos.eqb negb] in Hcall.
  rewrite Hcall, handle_errors_eq, Hs3. reflexivity.
Qed.

(** C4.  With [retry] unset, when the transport answers the call's first
    request 401, the call makes exactly that one request and no
    re-authentication, leaves the configuration as it was, and raises
    [AuthenticationError] built from that response. *)
Theorem no_retry_401_raises_authentication_error
    (v : Verb) endpoint (params params' : option loc) authenticated
    (w : World) (base : string) (h1 : gmap loc (gmap string pyval)) :
  ENVIRONMENT_URLS !! environment (config w) = Some base →
  handle_on_behalf_of params w = (Return params', mkWorld (config w) h1 (log w)) →
  let url := base +:+ endpoint in
  let r1 := session_call v (log w) url (headers_of authenticated (config w))
              (deref h1 params') in
  let evs := [EvRequest v url (headers_of authenticated (config w))
                (deref h1 params') r1] in
  status_code r1 = 401 →
  n_requests evs = 1%nat ∧ n_reauthenticate evs = 0%nat
  ∧ call v endpoint params authenticated false w
    = (Raise (ApiException AuthenticationError (verb_name v) url params' r1),
       mkWorld (config w) h1 (log w ++ evs)).
Proof.
  intros Hbase Hobo url r1 evs Hs1.
  split; [reflexivity|]. split; [reflexivity|].
  rewrite (call_first_response_final v endpoint params params' authenticated
             false w base h1 Hbase Hobo) by (by left).
  fold url r1. rewrite handle_errors_eq, Hs1. reflexivity.
Qed.

(** C8.  With [retry] set, when the transport answers each of the call's
    three requests 401, the call makes exactly three requests and three
    re-authentications - one after each 401, the last of them after the
    final attempt, so that no request follows it - and raises
    [AuthenticationError] built from the third response. *)
Theorem retry_exhausted_reauthenticates_three_times
    (v : Verb) endpoint (params params' : option loc) authenticated
    (w : World) (base : string) (h1 : gmap loc (gmap string pyval)) :
  ENVIRONMENT_URLS !! environment (config w) = Some base →
  handle_on_behalf_of params w = (Return params', mkWorld (config w) h1 (log w)) →
  let url := base +:+ endpoint in
  let d := deref h1 params' in
  let r1 := session_call v (log w) url (headers_of authenticated (config w)) d in
  let req1 := EvRequest v url (headers_of authenticated (config w)) d r1 in
  let c1 := reauthenticate (log w ++ [req1]) (config w) in
  let r2 := session_call v (log w ++ [req1; EvReauthenticate c1]) url
              (headers_of authenticated c1) d in
  let req2 := EvRequest v url (headers_of authenticated c1) d r2 in
  let c2 := reauthenticate (log w ++ [req1; EvReauthenticate c1; req2]) c1 in
  let r3 := session_call v
              (log w ++ [req1; EvReauthenticate c1; req2; EvReauthenticate c2])
              url (headers_of authenticated c2) d in
  let req3 := EvRequest v url (headers_of authenticated c2) d r3 in
  let c3 := reauthenticate
              (log w ++ [req1; EvReauthenticate c1; req2; EvReauthenticate c2;
                         req3]) c2 in
  let evs := [req1; EvReauthenticate c1; req2; EvReauthenticate c2; req3;
              EvReauthenticate c3] in
  status_code r1 = 401 → status_code r2 = 401 → status_code r3 = 401 →
  n_requests evs = 3%nat ∧ n_reauthenticate evs = 3%nat
  ∧ last evs = Some (EvReauthenticate c3)
  ∧ call v endpoint params authenticated true w
    = (Raise (ApiException AuthenticationError (verb_name v) url params' r3),
       mkWorld c3 h1 (log w ++ evs)).
Proof.
  intros Hbase Hobo url d r1 req1 c1 r2 req2 c2 r3 req3 c3 evs Hs1 Hs2 Hs3.
  split; [reflexivity|]. split; [reflexivity|]. split; [reflexivity|].
  pose proof (call_with_retry v endpoint params params' authenticated w base h1
                Hbase Hobo) as Hcall.
  cbn zeta in Hcall. fold url d in Hcall.
  fold r1 req1 c1 r2 req2 c2 r3 req3 c3 in Hcall.
  rewrite Hs1, Hs2, Hs3 in Hcall. cbn [Z.eqb Pos.eqb negb] in Hcall.
  rewrite Hcall, handle_errors_eq, Hs3. reflexivity.
Qed.

(** C5.  When the three environment names are distinct: under the
    production, demonstration or UAT name the URL is that environment's
    fixed base URL followed by the endpoint, and it is the URL of every
    request the call makes; under any other name the call raises
    [RuntimeError] - not an API error - and the world is as it was: no
    request, no change to the parameters, no re-authentication. *)
Theorem environment_decides_url
    (v : Verb) endpoint (params : option loc) authenticated retry (w : World) :
  NoDup [ENV_PRODUCTION; ENV_DEMONSTRATION; ENV_UAT] →
  (∀ base : string,
     (environment (config w) = ENV_PRODUCTION
      ∧ base = "https://api.thecurrencycloud.com")
     ∨ (environment (config w) = ENV_DEMONSTRATION
        ∧ base = "https://devapi.thecurrencycloud.com")
     ∨ (environment (config w) = ENV_UAT
        ∧ base = "https://api-uat1.ccycloud.com") →
     build_url endpoint w = (Return (base +:+ endpoint), w)
     ∧ ∃ res h1 evs,
         call v endpoint params authenticated retry w
         = (res, mkWorld (config_after (config w) evs) h1 (log w ++ evs))
         ∧ (1 ≤ n_requests evs)%nat
         ∧ ∀ (i : nat) v' url headers d r,
             evs !! i = Some (EvRequest v' url headers d r) →
             v' = v ∧ url = base +:+ endpoint)
  ∧ (environment (config w) ≠ ENV_PRODUCTION →
     environment (config w) ≠ ENV_DEMONSTRATION →
     environment (config w) ≠ ENV_UAT →
     call v endpoint params authenticated retry w
     = (Raise (RuntimeError
                 (environment (config w) +:+ " is not a valid environment name")),
        w)).
Proof.
  intros Hnd. split.
  - intros base Henv.
    assert (Hbase : ENVIRONMENT_URLS !! environment (config w) = Some base).
    { apply NoDup_cons in Hnd as [Hp Hnd]. apply NoDup_cons in Hnd as [Hd _].
      rewrite !not_elem_of_cons in Hp. rewrite !not_elem_of_cons in Hd.
      destruct Hp as (Hpd & Hpu & _). destruct Hd as (Hdu & _).
      unfold ENVIRONMENT_URLS.
      destruct Henv as [[-> ->]|[[-> ->]|[-> ->]]].
      - rewrite lookup_insert_ne by congruence.
        rewrite lookup_insert_ne by congruence.
        by rewrite lookup_insert_eq.
      - rewrite lookup_insert_ne by congruence.
        by rewrite lookup_insert_eq.
      - by rewrite lookup_insert_eq. }
    split.
    + assert (Hin : environment (config w) ∈ dom ENVIRONMENT_URLS)
        by (apply elem_of_dom; eauto).
      destruct (environment_url_valid w Hin) as (base' & Hbase' & Hurl).
      assert (base' = base) as -> by congruence.
      unfold build_url, bind. by rewrite Hurl.
    + destruct (call_run v endpoint params authenticated retry w base Hbase)
        as (params' & h1 & r & evs & Hobo & Htr & _ & Hcall).
      eexists _, h1, evs. split; [|split].
      * rewrite Hcall. apply handle_errors_world.
      * apply loop_trace_requests in Htr. lia.
      * intros i v' url headers d r0 Hi.
        pose proof (loop_trace_justified _ _ _ _ _ _ _ _ _ _ Htr i _ Hi) as Hj.
        cbn in Hj. tauto.
  - intros Hp Hd Hu. apply call_invalid_environment.
    rewrite ENVIRONMENT_URLS_dom. tauto.
Qed.

(** C7.  [__build_headers] returns the single header [X-Auth-Token] with
    the configuration's current token when [authenticated] is set, and no
    header otherwise; and every request of a call carries the headers so
    built from the configuration in force when the request is made. *)
Theorem headers_follow_authenticated_flag
    (v : Verb) endpoint (params : option loc) authenticated retry
    (w : World) (base : string) :
  ENVIRONMENT_URLS !! environment (config w) = Some base →
  build_headers true w
  = (Return {[ "X-Auth-Token" := auth_token (config w) ]}, w)
  ∧ build_headers false w = (Return ∅, w)
  ∧ ∃ res h1 evs,
      call v endpoint params authenticated retry w
      = (res, mkWorld (config_after (config w) evs) h1 (log w ++ evs))
      ∧ ∀ (i : nat) v' url headers d r,
          evs !! i = Some (EvRequest v' url headers d r) →
          headers
          = if authenticated
            then {[ "X-Auth-Token"
                    := auth_token (config_after (config w) (take i evs)) ]}
            else ∅.
Proof.
  intros Hbase. split; [done|]. split; [done|].
  destruct (call_run v endpoint params authenticated retry w base Hbase)
    as (params' & h1 & r & evs & Hobo & Htr & _ & Hcall).
  eexists _, h1, evs. split.
  - rewrite Hcall. apply handle_errors_world.
  - intros i v' url headers d r0 Hi.
    pose proof (loop_trace_justified _ _ _ _ _ _ _ _ _ _ Htr i _ Hi) as Hj.
    cbn in Hj. destruct Hj as (_ & _ & -> & _). reflexivity.
Qed.

(** C9.  With [authenticated] unset and [retry] set.  The call sends its
    first request with no header.  Each time the answer is 401 it
    re-authenticates the shared configuration and, while attempts are
    left, sends the request again, still with no header; after a third
    401 it re-authenticates once more and stops.  The configuration the
    call leaves is the one the last re-authentication returned, and the
    last response received is the one mapped to the outcome. *)
Theorem unauthenticated_retry_still_reauthenticates
    (v : Verb) endpoint (params params' : option loc)
    (w : World) (base : string) (h1 : gmap loc (gmap string pyval)) :
  ENVIRONMENT_URLS !! environment (config w) = Some base →
  handle_on_behalf_of params w = (Return params', mkWorld (config w) h1 (log w)) →
  let url := base +:+ endpoint in
  let d := deref h1 params' in
  let r1 := session_call v (log w) url ∅ d in
  let req1 := EvRequest v url ∅ d r1 in
  let c1 := reauthenticate (log w ++ [req1]) (config w) in
  let r2 := session_call v (log w ++ [req1; EvReauthenticate c1]) url ∅ d in
  let req2 := EvRequest v url ∅ d r2 in
  let c2 := reauthenticate (log w ++ [req1; EvReauthenticate c1; req2]) c1 in
  let r3 := session_call v
              (log w ++ [req1; EvReauthenticate c1; req2; EvReauthenticate c2])
              url ∅ d in
  let req3 := EvRequest v url ∅ d r3 in
  let c3 := reauthenticate
              (log w ++ [req1; EvReauthenticate c1; req2; EvReauthenticate c2;
                         req3]) c2 in
  call v endpoint params false true w
  = let '(evs, r) :=
      if negb (status_code r1 =? 401)%Z then ([req1], r1)
      else if negb (status_code r2 =? 401)%Z
           then ([req1; EvReauthenticate c1; req2], r2)
      else if negb (status_code r3 =? 401)%Z
           then ([req1; EvReauthenticate c1; req2; EvReauthenticate c2; req3], r3)
      else ([req1; EvReauthenticate c1; req2; EvReauthenticate c2; req3;
             EvReauthenticate c3], r3) in
    handle_errors (verb_name v) url params' r
      (mkWorld (config_after (config w) evs) h1 (log w ++ evs)).
Proof.
  intros Hbase Hobo.
  exact (call_with_retry v endpoint params params' false w base h1 Hbase Hobo).
Qed.

(** C10.  Under an environment name that is not in [ENVIRONMENT_URLS] a
    call raises [RuntimeError] and leaves the world exactly as it found
    it: the store of parameter dictionaries is unchanged even when
    [on_behalf_of] is configured, and the history gains no request and
    no re-authentication. *)
Theorem invalid_environment_fails_before_any_effect
    (v : Verb) endpoint (params : option loc) authenticated retry (w : World) :
  environment (config w) ∉ dom ENVIRONMENT_URLS →
  ∃ msg w',
    call v endpoint params authenticated retry w = (Raise (RuntimeError msg), w')
    ∧ heap w' = heap w ∧ log w' = log w ∧ config w' = config w.
Proof.
  intros Hin. eexists _, w.
  by rewrite call_invalid_environment.
Qed.

(** C6.  A call sends, with every request, the dictionary that
    [__handle_on_behalf_of] returns.  When [on_behalf_of] is not
    configured that is the caller's argument, and the store is unchanged.
    When it is configured with value [obo]: if the caller passed [None],
    a new dictionary holding only that entry is created; if the caller
    passed a dictionary without the key, the entry is written into that
    very dictionary; if the caller's dictionary has the key, nothing is
    written. *)
Theorem on_behalf_of_injected_when_absent
    (v : Verb) endpoint (params : option loc) authenticated retry
    (w : World) (base : string) :
  ENVIRONMENT_URLS !! environment (config w) = Some base →
  ∃ params' h1 res evs,
    handle_on_behalf_of params w
    = (Return params', mkWorld (config w) h1 (log w))
    ∧ call v endpoint params authenticated retry w
      = (res, mkWorld (config_after (config w) evs) h1 (log w ++ evs))
    ∧ (∀ (i : nat) v' url headers d r,
         evs !! i = Some (EvRequest v' url headers d r) →
         d = deref h1 params')
    ∧ (on_behalf_of (config w) = None → params' = params ∧ h1 = heap w)
    ∧ (∀ obo : string, on_behalf_of (config w) = Some obo →
         (params = None →
            ∃ l, params' = Some l ∧ (l ∉ dom (heap w))
                 ∧ h1 = <[l := {[ "on_behalf_of" := PStr obo ]}]> (heap w))
         ∧ (∀ l : loc, params = Some l →
              "on_behalf_of" ∉ dom (heap w !!! l) →
              params' = Some l
              ∧ h1 = <[l := <["on_behalf_of" := PStr obo]> (heap w !!! l)]>
                       (heap w)
              ∧ (h1 !!! l) !! "on_behalf_of" = Some (PStr obo))
         ∧ (∀ l : loc, params = Some l →
              "on_behalf_of" ∈ dom (heap w !!! l) →
              params' = Some l ∧ h1 = heap w)).
Proof.
  intros Hbase.
  destruct (call_run v endpoint params authenticated retry w base Hbase)
    as (params' & h1 & r & evs & Hobo & Htr & _ & Hcall).
  exists params', h1. eexists _, evs.
  split; [exact Hobo|]. split; [rewrite Hcall; apply handle_errors_world|].
  split; [|split].
  - intros i v' url headers d r0 Hi.
    pose proof (loop_trace_justified _ _ _ _ _ _ _ _ _ _ Htr i _ Hi) as Hj.
    cbn in Hj. tauto.
  - intros Hc. rewrite (handle_on_behalf_of_unset _ _ Hc) in Hobo.
    destruct w; cbn in *. by inversion Hobo.
  - intros obo Hc. split; [|split].
    + intros ->.
      destruct (handle_on_behalf_of_absent obo w Hc) as (l & Hl & Heq).
      rewrite Heq in Hobo. inversion Hobo. by exists l.
    + intros l -> Hk.
      rewrite (handle_on_behalf_of_injects obo l w Hc Hk) in Hobo.
      inversion Hobo. split; [done|]. split; [done|].
      by rewrite lookup_total_insert_eq, lookup_insert_eq.
    + intros l -> Hk.
      rewrite (handle_on_behalf_of_keeps obo l w Hc Hk) in Hobo.
      destruct w; cbn in *. by inversion Hobo.
Qed.

End HttpClaims.

(** ** The claims on concrete runs *)

(** The base URL of the environment of [w_demo]. *)
Lemma w_demo_environment :
  @ENVIRONMENT_URLS test_module !! environment (config w_demo)
  = Some "https://devapi.thecurrencycloud.com".
Proof. vm_compute. reflexivity. Qed.

(** What [__handle_on_behalf_of] does to the dictionary of [w_demo]. *)
Lemma w_demo_on_behalf_of :
  @handle_on_behalf_of (Some 0%nat) w_demo
  = (Return (Some 0%nat),
     mkWorld (config w_demo)
       (heap (snd (@handle_on_behalf_of (Some 0%nat) w_demo))) (log w_demo)).
Proof. vm_compute. reflexivity. Qed.

Lemma retry_loop_bounded_witness :
  ∃ params' r w',
    (n_requests (log w') ≤ 3)%nat
    ∧ last (responses (log w')) = Some r
    ∧ @call test_module (scripted [401; 200]) GET "/v2/balances" (Some 0%nat)
        true true w_demo
      = handle_errors "get" "https://devapi.thecurrencycloud.com/v2/balances"
          params' r w'.
Proof.
  destruct (@retry_loop_bounded_and_last_response_mapped test_module
              (scripted [401; 200]) GET "/v2/balances" (Some 0%nat) true true
              w_demo _ w_demo_environment)
    as (params' & h1 & r & evs & w' & _ & _ & Hlog & Hn & Hlast & _ & _ & _ & Hcall).
  exists params', r, w'. cbn in Hlog. rewrite Hlog.
  split; [apply Hn|]. split; [exact Hlast|exact Hcall].
Defined.

Lemma status_code_decides_outcome_witness :
  ∃ params' r w',
    status_code r = 418
    ∧ @call test_module (scripted [418]) POST "/v2/payments/create" None
        true true w_demo
      = (Raise (ApiException ApiError "post"
                  "https://devapi.thecurrencycloud.com/v2/payments/create"
                  params' r),
         w').
Proof.
  destruct (@status_code_decides_outcome test_module (scripted [418]) POST
              "/v2/payments/create" None true true w_demo _ w_demo_environment)
    as (params' & h1 & r & w' & Hobo & Hloop & Hcall).
  exists params', r, w'.
  assert (Hs : status_code r = 418).
  { vm_compute in Hobo. inversion Hobo; subst. clear Hobo Hcall.
    vm_compute in Hloop. inversion Hloop. reflexivity. }
  split; [exact Hs|]. rewrite Hcall, Hs. reflexivity.
Defined.

(** C2 as stated fails at 401: it is outside 200-299 and is none of 400,
    403, 404, 429, 500, yet the error raised is [AuthenticationError], not
    the generic [ApiError]. *)
Lemma status_401_is_not_generic :
  ¬ (200 ≤ 401 ≤ 299)%Z
  ∧ ((401 : Z) ∉ ([400; 403; 404; 429; 500] : list Z))
  ∧ fst (handle_errors "get" "https://devapi.thecurrencycloud.com/v2/balances"
           None (mkResponse 401 JNull) w_demo)
    = Raise (ApiException AuthenticationError "get"
               "https://devapi.thecurrencycloud.com/v2/balances" None
               (mkResponse 401 JNull))
  ∧ fst (handle_errors "get" "https://devapi.thecurrencycloud.com/v2/balances"
           None (mkResponse 401 JNull) w_demo)
    ≠ Raise (ApiException ApiError "get"
               "https://devapi.thecurrencycloud.com/v2/balances" None
               (mkResponse 401 JNull)).
Proof.
  split; [lia|]. split; [rewrite !not_elem_of_cons; repeat split; try lia;
                         apply not_elem_of_nil|].
  rewrite handle_errors_eq. cbn. split; [reflexivity|discriminate].
Qed.

Lemma retry_401_401_200_witness :
  ∃ w',
    @call test_module (scripted [401; 401; 200]) GET "/v2/balances"
      (Some 0%nat) true true w_demo
    = (Return (JNum 200), w')
    ∧ n_requests (log w') = 3%nat ∧ n_reauthenticate (log w') = 2%nat
    ∧ auth_token (config w') = "tok++".
Proof.
  pose proof (@retry_401_401_200 test_module (scripted [401; 401; 200]) GET
                "/v2/balances" (Some 0%nat) (Some 0%nat) true w_demo _ _
                w_demo_environment w_demo_on_behalf_of) as Hrun.
  cbn zeta in Hrun.
  destruct Hrun as (Hn & Hr & Hcall); [vm_compute; reflexivity..|].
  eexists. split; [exact Hcall|].
  split; [exact Hn|]. split; [exact Hr|reflexivity].
Defined.

(** C3 as stated fails when [authenticated] is unset: the transport answers
    the call 401, 401, 200, and the retried request that follows the first
    re-authentication has no header at all, so it does not carry the token
    that re-authentication left. *)
Lemma unauthenticated_retry_carries_no_token :
  ∃ c1 d r,
    map status_code
      (responses
         (log (snd (@call test_module (scripted [401; 401; 200]) GET
                      "/v2/balances" (Some 0%nat) false true w_demo))))
    = [401; 401; 200]
    ∧ log (snd (@call test_module (scripted [401; 401; 200]) GET "/v2/balances"
                  (Some 0%nat) false true w_demo)) !! 1%nat
      = Some (EvReauthenticate c1)
    ∧ log (snd (@call test_module (scripted [401; 401; 200]) GET "/v2/balances"
                  (Some 0%nat) false true w_demo)) !! 2%nat
      = Some (EvRequest GET "https://devapi.thecurrencycloud.com/v2/balances"
                ∅ d r)
    ∧ auth_token c1 = "tok+"
    ∧ (∅ : gmap string string) !! "X-Auth-Token" ≠ Some (auth_token c1).
Proof.
  eexists _, _, _. split; [vm_compute; reflexivity|].
  split; [vm_compute; reflexivity|].
  split; [vm_compute; reflexivity|].
  split; [reflexivity|]. rewrite lookup_empty. discriminate.
Qed.

Lemma no_retry_401_witness :
  ∃ r1 w',
    @call test_module (scripted [401]) POST "/v2/payments/create" (Some 0%nat)
      true false w_demo
    = (Raise (ApiException AuthenticationError "post"
                "https://devapi.thecurrencycloud.com/v2/payments/create"
                (Some 0%nat) r1),
       w')
    ∧ n_requests (log w') = 1%nat ∧ n_reauthenticate (log w') = 0%nat
    ∧ config w' = config w_demo.
Proof.
  pose proof (@no_retry_401_raises_authentication_error test_module
                (scripted [401]) POST "/v2/payments/create" (Some 0%nat)
                (Some 0%nat) true w_demo _ _ w_demo_environment
                w_demo_on_behalf_of) as Hrun.
  cbn zeta in Hrun.
  destruct Hrun as (Hn & Hr & Hcall); [vm_compute; reflexivity|].
  eexists _, _. split; [exact Hcall|].
  split; [exact Hn|]. split; [exact Hr|reflexivity].
Defined.

Lemma environment_decides_url_witness :
  @build_url test_module "/v2/balances" w_demo
  = (Return "https://devapi.thecurrencycloud.com/v2/balances", w_demo)
  ∧ @call test_module (scripted [200]) GET "/v2/balances" None true true
      (mkWorld (mkConfig "staging" "tok" (Some "acct")) (heap w_demo) [])
    = (Raise (RuntimeError "staging is not a valid environment name"),
       mkWorld (mkConfig "staging" "tok" (Some "acct")) (heap w_demo) []).
Proof.
  assert (Hnd : NoDup [@ENV_PRODUCTION test_module; @ENV_DEMONSTRATION test_module;
                       @ENV_UAT test_module]).
  { cbn. repeat constructor; rewrite ?not_elem_of_cons;
      repeat split; try discriminate; apply not_elem_of_nil. }
  split.
  - destruct (@environment_decides_url test_module (scripted [200]) GET
                "/v2/balances" None true true w_demo Hnd) as [Hvalid _].
    destruct (Hvalid "https://devapi.thecurrencycloud.com") as [Hurl _].
    { right; left. split; reflexivity. }
    exact Hurl.
  - destruct (@environment_decides_url test_module (scripted [200]) GET
                "/v2/balances" None true true
                (mkWorld (mkConfig "staging" "tok" (Some "acct")) (heap w_demo) [])
                Hnd) as [_ Hinvalid].
    apply Hinvalid; cbn; discriminate.
Defined.

Lemma on_behalf_of_injected_witness :
  ∃ params' h1 res evs,
    @call test_module (scripted [200]) GET "/v2/balances" (Some 0%nat)
      true true w_demo
    = (res, mkWorld (config_after (config w_demo) evs) h1 (log w_demo ++ evs))
    ∧ params' = Some 0%nat
    ∧ (h1 !!! 0%nat) !! "on_behalf_of" = Some (PStr "acct")
    ∧ (h1 !!! 0%nat) !! "currency" = Some (PStr "GBP").
Proof.
  destruct (@on_behalf_of_injected_when_absent test_module (scripted [200]) GET
              "/v2/balances" (Some 0%nat) true true w_demo _ w_demo_environment)
    as (params' & h1 & res & evs & _ & Hcall & _ & _ & Hset).
  destruct (Hset "acct" eq_refl) as (_ & Hinj & _).
  assert (Hk : "on_behalf_of" ∉ dom (heap w_demo !!! 0%nat)).
  { vm_compute. intros Hin. discriminate Hin. }
  destruct (Hinj 0%nat eq_refl Hk) as (Hp & Hh & Hobo).
  exists params', h1, res, evs. split; [exact Hcall|]. split; [exact Hp|].
  split; [exact Hobo|]. rewrite Hh. vm_compute. reflexivity.
Defined.

Lemma headers_follow_authenticated_flag_witness :
  @build_headers true w_demo = (Return {[ "X-Auth-Token" := "tok" ]}, w_demo)
  ∧ @build_headers false w_demo = (Return ∅, w_demo).
Proof.
  destruct (@headers_follow_authenticated_flag test_module (scripted [200]) GET
              "/v2/balances" None true true w_demo _ w_demo_environment)
    as (Ht & Hf & _).
  split; [exact Ht|exact Hf].
Defined.

Lemma retry_exhausted_witness :
  ∃ r3 w',
    @call test_module (scripted [401; 401; 401]) GET "/v2/balances"
      (Some 0%nat) true true w_demo
    = (Raise (ApiException AuthenticationError "get"
                "https://devapi.thecurrencycloud.com/v2/balances" (Some 0%nat)
                r3),
       w')
    ∧ n_requests (log w') = 3%nat ∧ n_reauthenticate (log w') = 3%nat
    ∧ auth_token (config w') = "tok+++".
Proof.
  pose proof (@retry_exhausted_reauthenticates_three_times test_module
                (scripted [401; 401; 401]) GET "/v2/balances" (Some 0%nat)
                (Some 0%nat) true w_demo _ _ w_demo_environment
                w_demo_on_behalf_of) as Hrun.
  cbn zeta in Hrun.
  destruct Hrun as (Hn & Hr & _ & Hcall); [vm_compute; reflexivity..|].
  eexists _, _. split; [exact Hcall|].
  split; [exact Hn|]. split; [exact Hr|reflexivity].
Defined.

Lemma unauthenticated_retry_witness :
  ∃ d r1 r2 c1 h1,
    @call test_module (scripted [401; 200]) GET "/v2/balances" (Some 0%nat)
      false true w_demo
    = (Return (JNum 200),
       mkWorld c1 h1
         [EvRequest GET "https://devapi.thecurrencycloud.com/v2/balances" ∅ d r1;
          EvReauthenticate c1;
          EvRequest GET "https://devapi.thecurrencycloud.com/v2/balances" ∅ d r2])
    ∧ auth_token c1 = "tok+".
Proof.
  pose proof (@unauthenticated_retry_still_reauthenticates test_module
                (scripted [401; 200]) GET "/v2/balances" (Some 0%nat)
                (Some 0%nat) w_demo _ _ w_demo_environment
                w_demo_on_behalf_of) as Hrun.
  cbn zeta in Hrun.
  eexists _, _, _, _, _. split.
  - rewrite Hrun. vm_compute. reflexivity.
  - reflexivity.
Defined.

Lemma invalid_environment_witness :
  ∃ msg w',
    @call test_module (scripted [200]) POST "/v2/payments/create" (Some 0%nat)
      true true
      (mkWorld (mkConfig "staging" "tok" (Some "acct")) (heap w_demo) [])
    = (Raise (RuntimeError msg), w')
    ∧ heap w' = heap w_demo ∧ log w' = [].
Proof.
  destruct (@invalid_environment_fails_before_any_effect test_module
              (scripted [200]) POST "/v2/payments/create" (Some 0%nat) true true
              (mkWorld (mkConfig "staging" "tok" (Some "acct")) (heap w_demo) []))
    as (msg & w' & Hcall & Hheap & Hlog & _).
  { rewrite ENVIRONMENT_URLS_dom. cbn. intros [|[|]]; discriminate. }
  exists msg, w'. split; [exact Hcall|]. split; [exact Hheap|exact Hlog].
Defined.


(** ** Further properties of the module *)

Section HttpMore.
Context `{ConfigModule} `{Collaborators}.

(** *** More on the loop *)

(** The loop returns whatever headers it is entered with: the response of
    its last request, after at most [S n] requests, the store untouched. *)
Lemma while_retry_count_returns (v : Verb) retry url data authenticated
    (n : nat) response headers (w : World) :
  ∃ r evs c',
    while_retry_count (execute_request_of v) retry url data authenticated
      (S n) response headers w
    = (Return r, mkWorld c' (heap w) (log w ++ evs))
    ∧ last (responses evs) = Some r
    ∧ (1 ≤ n_requests evs ≤ S n)%nat.
Proof.
  revert response headers w.
  induction n as [|n IH]; intros response headers w;
    rewrite while_retry_count_S; cbn zeta;
    set (d := deref (heap w) data);
    set (r := session_call v (log w) url headers d);
    set (req := EvRequest v url headers d r);
    destruct (status_code r =? 401)%Z.
  - destruct retry; cbn [while_retry_count]; unfold ret; cbn [config heap log].
    + eexists r, [req; _], _. rewrite <- app_assoc.
      split; [reflexivity|]. cbn. split; [done|lia].
    + by eexists r, [req], _.
  - eexists r, [req], _. split; [reflexivity|]. cbn. split; [done|lia].
  - cbn [config heap log]. destruct retry.
    + match goal with
      | |- context [while_retry_count _ _ _ _ _ _ ?resp ?h ?w'] =>
          destruct (IH resp h w') as (r' & evs & c' & Hrun & Hlast & Hn)
      end.
      cbn [config heap log] in Hrun.
      eexists r', (req :: _ :: evs), c'.
      split; [rewrite Hrun, <- !app_assoc; reflexivity|].
      cbn. split; [|lia]. destruct (responses evs); [done|exact Hlast].
    + match goal with
      | |- context [while_retry_count _ _ _ _ _ _ ?resp ?h ?w'] =>
          destruct (IH resp h w') as (r' & evs & c' & Hrun & Hlast & Hn)
      end.
      cbn [config heap log] in Hrun.
      eexists r', (req :: evs), c'.
      split; [rewrite Hrun, <- !app_assoc; reflexivity|].
      cbn. split; [|lia]. destruct (responses evs); [done|exact Hlast].
  - eexists r, [req], _. split; [reflexivity|]. cbn. split; [done|lia].
Qed.

Section LoopTraceMore.
Variables (v : Verb) (retry : bool) (url : string)
          (d : option (gmap string pyval)) (authenticated : bool).

Lemma loop_trace_first n c hist evs r :
  loop_trace v retry url d authenticated n c hist evs r →
  ∃ rest,
    evs = EvRequest v url (headers_of authenticated c) d
            (session_call v hist url (headers_of authenticated c) d) :: rest.
Proof.
  destruct 1 as [n c hist r Hr Hs | c hist r Hr Hs
                | n c hist r evs r' Hr H401 req re Htr]; subst; by eexists.
Qed.

Lemma loop_trace_count_401 n c hist evs r :
  loop_trace v retry url d authenticated n c hist evs r →
  n_reauthenticate evs
  = if retry
    then length (filter (λ r0, status_code r0 = 401) (responses evs))
    else 0%nat.
Proof.
  induction 1 as [n c hist r Hr Hs | c hist r Hr Hs
                 | n c hist r evs r' Hr H401 req re Htr IH];
    cbn [n_reauthenticate responses].
  - rewrite filter_cons_False by done. by destruct retry.
  - rewrite after_401_reauthenticate, after_401_responses.
    rewrite filter_cons_True by done. by destruct retry.
  - subst req re. cbn [n_reauthenticate responses].
    rewrite n_reauthenticate_app, responses_app.
    rewrite after_401_reauthenticate, after_401_responses, IH.
    cbn [app]. rewrite filter_cons_True by done. by destruct retry.
Qed.

Lemma loop_trace_all_401 n c hist evs r :
  loop_trace v retry url d authenticated n c hist evs r →
  status_code r = 401 →
  Forall (λ r0, status_code r0 = 401) (responses evs).
Proof.
  induction 1 as [n c hist r Hr Hs | c hist r Hr Hs
                 | n c hist r evs r' Hr H401 req re Htr IH]; intros Hlast; cbn.
  - done.
  - rewrite after_401_responses. by repeat constructor.
  - rewrite responses_app. subst re. rewrite after_401_responses. cbn.
    constructor; [done|by apply IH].
Qed.

Lemma loop_trace_reauthenticate_follows_401 n c hist evs r :
  loop_trace v retry url d authenticated n c hist evs r →
  ∀ (i : nat) (c' : Config), evs !! i = Some (EvReauthenticate c') →
    ∃ (i' : nat) headers (r0 : Response),
      i = S i' ∧ evs !! i' = Some (EvRequest v url headers d r0)
      ∧ status_code r0 = 401.
Proof.
  induction 1 as [n c hist r Hr Hs | c hist r Hr Hs
                 | n c hist r evs r' Hr H401 req re Htr IH]; intros i c' Hi.
  - destruct i as [|i]; cbn in Hi; [done|by destruct i].
  - destruct i as [|i]; cbn in Hi; [done|].
    destruct retry; cbn in Hi; [|by destruct i].
    destruct i as [|i]; cbn in Hi; [|by destruct i].
    by eexists 0%nat, _, r.
  - destruct i as [|i]; cbn in Hi; [done|]. subst re.
    destruct retry; cbn in Hi.
    + destruct i as [|i]; cbn in Hi; [by eexists 0%nat, _, r|].
      destruct (IH i c' Hi) as (i' & headers & r0 & -> & Hreq & Hs0).
      by eexists (S (S i')), headers, r0.
    + destruct (IH i c' Hi) as (i' & headers & r0 & -> & Hreq & Hs0).
      by eexists (S i'), headers, r0.
Qed.

End LoopTraceMore.

Lemma spec_error_kind_authentication (s : Z) :
  spec_error_kind s = AuthenticationError ↔ s = 401.
Proof.
  unfold spec_error_kind. split.
  - repeat match goal with
           | |- context [(?a =? ?b)%Z] => destruct (Z.eqb_spec a b)
           end; intros Hk; try discriminate Hk; lia.
  - by intros ->.
Qed.

(** *** Properties *)

(** X1.  [__handle_authentication_errors] always returns a response,
    whatever headers, parameters and world it is entered with: the
    [return response] after the loop is never reached with [response]
    unbound.  The response is the one its last request received, the
    store is untouched, and it makes between one and [3 if retry else 1]
    requests. *)
Theorem handle_authentication_errors_returns_last_response
    (v : Verb) retry url headers (data : option loc) authenticated (w : World) :
  ∃ r evs c',
    handle_authentication_errors (execute_request_of v) retry url headers data
      authenticated w
    = (Return r, mkWorld c' (heap w) (log w ++ evs))
    ∧ last (responses evs) = Some r
    ∧ (1 ≤ n_requests evs ≤ if retry then 3 else 1)%nat.
Proof.
  unfold handle_authentication_errors.
  destruct retry; apply while_retry_count_returns.
Qed.

(** X3.  [__handle_on_behalf_of] is idempotent once [on_behalf_of] is
    configured: handing the dictionary it returned to it again, under any
    configuration and history, returns the same dictionary and writes
    nothing.  So a dictionary that went through one call keeps the
    [on_behalf_of] entry it has, even if the configured value changes. *)
Theorem handle_on_behalf_of_idempotent
    (data data' : option loc) (obo : string) (w w1 : World) :
  on_behalf_of (config w) = Some obo →
  handle_on_behalf_of data w = (Return data', w1) →
  ∀ (c' : Config) (history : list Event),
    handle_on_behalf_of data' (mkWorld c' (heap w1) history)
    = (Return data', mkWorld c' (heap w1) history).
Proof.
  intros Hc Hrun c' history.
  assert (Hkey : ∃ l, data' = Some l ∧ "on_behalf_of" ∈ dom (heap w1 !!! l)).
  { destruct data as [l|].
    - destruct (decide ("on_behalf_of" ∈ dom (heap w !!! l))) as [Hk|Hk].
      + rewrite (handle_on_behalf_of_keeps obo l w Hc Hk) in Hrun.
        inversion Hrun; subst. by exists l.
      + rewrite (handle_on_behalf_of_injects obo l w Hc Hk) in Hrun.
        inversion Hrun; subst. exists l. split; [done|]. cbn [heap].
        rewrite lookup_total_insert_eq, dom_insert_L.
        apply elem_of_union_l, elem_of_singleton. reflexivity.
    - destruct (handle_on_behalf_of_absent obo w Hc) as (l & _ & Heq).
      rewrite Heq in Hrun. inversion Hrun; subst. exists l.
      split; [done|]. cbn [heap].
      rewrite lookup_total_insert_eq, dom_singleton_L.
      apply elem_of_singleton. reflexivity. }
  destruct Hkey as (l & -> & Hk).
  destruct (on_behalf_of c') as [obo'|] eqn:Hc'.
  - by apply (handle_on_behalf_of_keeps obo').
  - by apply handle_on_behalf_of_unset.
Qed.

(** X4.  What [__handle_on_behalf_of] leaves alone: the configuration and
    the history; every dictionary other than the caller's; in the caller's
    dictionary every key other than ['on_behalf_of'], and that key too when
    it is already there. *)
Theorem handle_on_behalf_of_frame (data : option loc) (w : World) :
  config (snd (handle_on_behalf_of data w)) = config w
  ∧ log (snd (handle_on_behalf_of data w)) = log w
  ∧ (∀ l : loc, l ∈ dom (heap w) → data ≠ Some l →
       heap (snd (handle_on_behalf_of data w)) !! l = heap w !! l)
  ∧ (∀ (l : loc) (k : string), data = Some l → k ≠ "on_behalf_of" →
       (heap (snd (handle_on_behalf_of data w)) !!! l) !! k
       = (heap w !!! l) !! k)
  ∧ (∀ (l : loc) (x : pyval), data = Some l →
       (heap w !!! l) !! "on_behalf_of" = Some x →
       (heap (snd (handle_on_behalf_of data w)) !!! l) !! "on_behalf_of"
       = Some x).
Proof.
  destruct (on_behalf_of (config w)) as [obo|] eqn:Hc.
  2: { rewrite (handle_on_behalf_of_unset _ _ Hc). cbn [snd]. by repeat split. }
  destruct data as [l0|].
  - destruct (decide ("on_behalf_of" ∈ dom (heap w !!! l0))) as [Hk|Hk].
    + rewrite (handle_on_behalf_of_keeps obo l0 w Hc Hk). cbn [snd].
      by repeat split.
    + rewrite (handle_on_behalf_of_injects obo l0 w Hc Hk).
      cbn [snd config heap log]. split; [done|]. split; [done|].
      split; [|split].
      * intros l _ Hne. apply lookup_insert_ne. congruence.
      * intros l k [= ->] Hne.
        rewrite lookup_total_insert_eq. by apply lookup_insert_ne.
      * intros l x [= ->] Hx. exfalso. apply Hk, elem_of_dom. eauto.
  - destruct (handle_on_behalf_of_absent obo w Hc) as (l0 & Hfresh & Heq).
    rewrite Heq. cbn [snd config heap log]. split; [done|]. split; [done|].
    split; [|split]; [|done..].
    intros l Hl _. apply lookup_insert_ne. intros ->. contradiction.
Qed.

(** X5.  With [retry] unset a call makes exactly one request and no
    re-authentication, whatever the response: the configuration is left
    as it was, and that one response decides the outcome. *)
Theorem no_retry_single_request
    (v : Verb) endpoint (params : option loc) authenticated
    (w : World) (base : string) :
  ENVIRONMENT_URLS !! environment (config w) = Some base →
  ∃ params' h1 r,
    handle_on_behalf_of params w
    = (Return params', mkWorld (config w) h1 (log w))
    ∧ call v endpoint params authenticated false w
      = handle_errors (verb_name v) (base +:+ endpoint) params' r
          (mkWorld (config w) h1
             (log w ++ [EvRequest v (base +:+ endpoint)
                          (headers_of authenticated (config w))
                          (deref h1 params') r])).
Proof.
  intros Hbase.
  destruct (call_run v endpoint params authenticated false w base Hbase)
    as (params' & h1 & r & evs & Hobo & Htr & _ & Hcall).
  exists params', h1, r. split; [exact Hobo|]. rewrite Hcall.
  cbn [attempts_bound] in Htr.
  destruct (decide (status_code
                      (session_call v (log w) (base +:+ endpoint)
                         (headers_of authenticated (config w))
                         (deref h1 params')) = 401)) as [Hs|Hs].
  - apply loop_trace_step_exhausted in Htr as [_ ->]; [|exact Hs]. reflexivity.
  - apply loop_trace_step_answered in Htr as [_ ->]; [|exact Hs]. reflexivity.
Qed.

(** X6.  A first response other than 401 is final whatever [retry] says:
    the call makes that one request, never re-authenticates, leaves the
    configuration as it was, and maps that response - a 500, say, is not
    retried. *)
Theorem non_401_response_is_not_retried
    (v : Verb) endpoint (params params' : option loc) authenticated retry
    (w : World) (base : string) (h1 : gmap loc (gmap string pyval)) :
  ENVIRONMENT_URLS !! environment (config w) = Some base →
  handle_on_behalf_of params w = (Return params', mkWorld (config w) h1 (log w)) →
  let url := base +:+ endpoint in
  let r1 := session_call v (log w) url (headers_of authenticated (config w))
              (deref h1 params') in
  status_code r1 ≠ 401 →
  call v endpoint params authenticated retry w
  = handle_errors (verb_name v) url params' r1
      (mkWorld (config w) h1
         (log w ++ [EvRequest v url (headers_of authenticated (config w))
                      (deref h1 params') r1])).
Proof.
  intros Hbase Hobo url r1 Hs.
  apply (call_first_response_final v endpoint params params' authenticated
           retry w base h1 Hbase Hobo). by right.
Qed.

(** X7.  With [retry] set, a call re-authenticates exactly once per 401
    response it receives, whatever the transport answers. *)
Theorem reauthentications_count_401_responses
    (v : Verb) endpoint (params : option loc) authenticated
    (w : World) (base : string) :
  ENVIRONMENT_URLS !! environment (config w) = Some base →
  ∃ res h1 evs,
    call v endpoint params authenticated true w
    = (res, mkWorld (config_after (config w) evs) h1 (log w ++ evs))
    ∧ n_reauthenticate evs
      = length (filter (λ r, status_code r = 401) (responses evs)).
Proof.
  intros Hbase.
  destruct (call_run v endpoint params authenticated true w base Hbase)
    as (params' & h1 & r & evs & Hobo & Htr & _ & Hcall).
  eexists _, h1, evs. split; [rewrite Hcall; apply handle_errors_world|].
  exact (loop_trace_count_401 _ _ _ _ _ _ _ _ _ _ Htr).
Qed.

(** X8.  A call raises [AuthenticationError] exactly when it has used up
    its attempts - three with [retry], one without - and every one of them
    was answered 401. *)
Theorem authentication_error_iff_all_attempts_401
    (v : Verb) endpoint (params : option loc) authenticated retry
    (w : World) (base : string) :
  ENVIRONMENT_URLS !! environment (config w) = Some base →
  ∃ res h1 evs,
    call v endpoint params authenticated retry w
    = (res, mkWorld (config_after (config w) evs) h1 (log w ++ evs))
    ∧ ((∃ verb url p r, res = Raise (ApiException AuthenticationError verb url p r))
       ↔ n_requests evs = (if retry then 3%nat else 1%nat)
         ∧ Forall (λ r, status_code r = 401) (responses evs)).
Proof.
  intros Hbase.
  destruct (call_run v endpoint params authenticated retry w base Hbase)
    as (params' & h1 & r & evs & Hobo & Htr & _ & Hcall).
  eexists _, h1, evs. split; [rewrite Hcall; apply handle_errors_world|].
  rewrite handle_errors_eq. cbn [fst]. split.
  - intros (verb & url & p & r0 & Hres).
    assert (Hs : status_code r = 401).
    { destruct (_ && _); [discriminate Hres|].
      injection Hres as Hk _ _ _ _.
      by apply spec_error_kind_authentication. }
    split.
    + exact (loop_trace_exhausted _ _ _ _ _ _ _ _ _ _ Htr Hs).
    + exact (loop_trace_all_401 _ _ _ _ _ _ _ _ _ _ Htr Hs).
  - intros [_ Hall].
    assert (Hs : status_code r = 401).
    { pose proof (loop_trace_last _ _ _ _ _ _ _ _ _ _ Htr) as Hlast.
      rewrite Forall_forall in Hall. apply Hall.
      rewrite last_lookup in Hlast. by eapply list_elem_of_lookup_2. }
    rewrite Hs. cbn. by eexists _, _, _, _.
Qed.

(** X9.  A call never re-authenticates unprompted: it starts with a
    request, and every re-authentication comes directly after a request of
    this call that was answered 401, in a call made with [retry] set. *)
Theorem reauthenticate_only_after_401
    (v : Verb) endpoint (params : option loc) authenticated retry
    (w : World) (base : string) :
  ENVIRONMENT_URLS !! environment (config w) = Some base →
  ∃ res h1 evs,
    call v endpoint params authenticated retry w
    = (res, mkWorld (config_after (config w) evs) h1 (log w ++ evs))
    ∧ (∃ headers d r, evs !! 0%nat = Some (EvRequest v (base +:+ endpoint) headers d r))
    ∧ (∀ (i : nat) (c' : Config), evs !! i = Some (EvReauthenticate c') →
         retry = true
         ∧ ∃ (i' : nat) headers d (r0 : Response),
             i = S i'
             ∧ evs !! i' = Some (EvRequest v (base +:+ endpoint) headers d r0)
             ∧ status_code r0 = 401).
Proof.
  intros Hbase.
  destruct (call_run v endpoint params authenticated retry w base Hbase)
    as (params' & h1 & r & evs & Hobo & Htr & _ & Hcall).
  eexists _, h1, evs. split; [rewrite Hcall; apply handle_errors_world|].
  split.
  - destruct (loop_trace_first _ _ _ _ _ _ _ _ _ _ Htr) as [rest ->].
    by eexists _, _, _.
  - intros i c' Hi. split.
    + pose proof (loop_trace_justified _ _ _ _ _ _ _ _ _ _ Htr i _ Hi) as Hj.
      cbn in Hj. tauto.
    + destruct (loop_trace_reauthenticate_follows_401 _ _ _ _ _ _ _ _ _ _ Htr
                  i c' Hi) as (i' & headers & r0 & -> & Hreq & Hs).
      by eexists i', headers, _, r0.
Qed.

(** X10.  Calls compose through the shared configuration: the first
    request of a call is built from the configuration the previous call
    left, that is, from what the previous call's last re-authentication
    returned - also when that re-authentication followed the previous
    call's final attempt. *)
Theorem next_call_starts_from_left_configuration
    (v1 v2 : Verb) endpoint1 endpoint2 (params1 params2 : option loc)
    authenticated1 authenticated2 retry1 retry2 (w : World)
    (base1 base2 : string) :
  ENVIRONMENT_URLS !! environment (config w) = Some base1 →
  ENVIRONMENT_URLS
    !! environment
         (config (snd (call v1 endpoint1 params1 authenticated1 retry1 w)))
  = Some base2 →
  ∃ evs1 h1 res2 w2 d r rest,
    snd (call v1 endpoint1 params1 authenticated1 retry1 w)
    = mkWorld (config_after (config w) evs1) h1 (log w ++ evs1)
    ∧ call v2 endpoint2 params2 authenticated2 retry2
        (snd (call v1 endpoint1 params1 authenticated1 retry1 w))
      = (res2, w2)
    ∧ log w2
      = log w ++ evs1
        ++ EvRequest v2 (base2 +:+ endpoint2)
             (headers_of authenticated2 (config_after (config w) evs1)) d r
           :: rest.
Proof.
  intros Hbase1 Hbase2.
  destruct (call_run v1 endpoint1 params1 authenticated1 retry1 w base1 Hbase1)
    as (p1 & h1 & r1 & evs1 & _ & _ & _ & Hcall1).
  rewrite handle_errors_world in Hcall1. rewrite Hcall1 in Hbase2 |- *.
  cbn [snd] in Hbase2 |- *.
  destruct (call_run v2 endpoint2 params2 authenticated2 retry2 _ base2 Hbase2)
    as (p2 & h2 & r2 & evs2 & _ & Htr2 & _ & Hcall2).
  rewrite handle_errors_world in Hcall2. cbn [config log] in Hcall2, Htr2.
  destruct (loop_trace_first _ _ _ _ _ _ _ _ _ _ Htr2) as [rest ->].
  eexists evs1, h1, _, _, _, _, rest. split; [reflexivity|].
  split; [exact Hcall2|]. cbn [log]. by rewrite <- app_assoc.
Qed.

End HttpMore.

(** *** On concrete runs *)

Lemma handle_on_behalf_of_idempotent_witness :
  @handle_on_behalf_of (Some 0%nat)
    (mkWorld (mkConfig "demo" "tok" (Some "other"))
       (heap (snd (@handle_on_behalf_of (Some 0%nat) w_demo))) [])
  = (Return (Some 0%nat),
     mkWorld (mkConfig "demo" "tok" (Some "other"))
       (heap (snd (@handle_on_behalf_of (Some 0%nat) w_demo))) []).
Proof.
  apply (@handle_on_behalf_of_idempotent (Some 0%nat) (Some 0%nat) "acct" w_demo
           (snd (@handle_on_behalf_of (Some 0%nat) w_demo))).
  - reflexivity.
  - vm_compute. reflexivity.
Defined.

Lemma no_retry_single_request_witness :
  ∃ res w',
    @call test_module (scripted [500; 200]) GET "/v2/balances" None true false
      w_demo
    = (res, w')
    ∧ n_requests (log w') = 1%nat ∧ n_reauthenticate (log w') = 0%nat
    ∧ config w' = config w_demo.
Proof.
  destruct (@no_retry_single_request test_module (scripted [500; 200]) GET
              "/v2/balances" None true w_demo _ w_demo_environment)
    as (params' & h1 & r & _ & Hcall).
  rewrite handle_errors_world in Hcall.
  eexists _, _. split; [exact Hcall|]. by repeat split.
Defined.

Lemma non_401_response_witness :
  ∃ r w',
    @call test_module (scripted [500]) POST "/v2/payments/create" (Some 0%nat)
      true true w_demo
    = (Raise (ApiException InternalApplicationError "post"
                "https://devapi.thecurrencycloud.com/v2/payments/create"
                (Some 0%nat) r),
       w')
    ∧ n_requests (log w') = 1%nat ∧ n_reauthenticate (log w') = 0%nat.
Proof.
  pose proof (@non_401_response_is_not_retried test_module (scripted [500]) POST
                "/v2/payments/create" (Some 0%nat) (Some 0%nat) true true
                w_demo _ _ w_demo_environment w_demo_on_behalf_of) as Hrun.
  cbn zeta in Hrun.
  eexists _, _. split; [|split].
  - rewrite Hrun; [|vm_compute; intros Heq; discriminate Heq].
    rewrite handle_errors_eq. reflexivity.
  - reflexivity.
  - reflexivity.
Defined.

Lemma reauthentications_count_witness :
  ∃ res w',
    @call test_module (scripted [401; 200]) GET "/v2/balances" None true true
      w_demo
    = (res, w')
    ∧ n_reauthenticate (log w')
      = length (filter (λ r, status_code r = 401) (responses (log w'))).
Proof.
  destruct (@reauthentications_count_401_responses test_module
              (scripted [401; 200]) GET "/v2/balances" None true w_demo _
              w_demo_environment)
    as (res & h1 & evs & Hcall & Hn).
  eexists res, _. split; [exact Hcall|exact Hn].
Defined.

Lemma authentication_error_witness :
  ∃ res w',
    @call test_module (scripted [401; 401; 200]) GET "/v2/balances" None true
      true w_demo
    = (res, w')
    ∧ ((∃ verb url p r,
          res = Raise (ApiException AuthenticationError verb url p r))
       ↔ n_requests (log w') = 3%nat
         ∧ Forall (λ r, status_code r = 401) (responses (log w'))).
Proof.
  destruct (@authentication_error_iff_all_attempts_401 test_module
              (scripted [401; 401; 200]) GET "/v2/balances" None true true
              w_demo _ w_demo_environment)
    as (res & h1 & evs & Hcall & Hiff).
  eexists res, _. split; [exact Hcall|exact Hiff].
Defined.

Lemma reauthenticate_only_after_401_witness :
  ∃ res w',
    @call test_module (scripted [401; 200]) GET "/v2/balances" None true true
      w_demo
    = (res, w')
    ∧ ∀ (i : nat) (c' : Config), log w' !! i = Some (EvReauthenticate c') →
        ∃ (i' : nat) headers d (r0 : Response),
          i = S i'
          ∧ log w' !! i'
            = Some (EvRequest GET
                      "https://devapi.thecurrencycloud.com/v2/balances"
                      headers d r0)
          ∧ status_code r0 = 401.
Proof.
  destruct (@reauthenticate_only_after_401 test_module (scripted [401; 200])
              GET "/v2/balances" None true true w_demo _ w_demo_environment)
    as (res & h1 & evs & Hcall & _ & Hre).
  eexists res, _. split; [exact Hcall|].
  intros i c' Hi. exact (proj2 (Hre i c' Hi)).
Defined.

Lemma next_call_witness :
  ∃ res2 w2 d r rest,
    @call test_module (scripted [401; 401; 401; 200]) GET "/v2/balances" None
      true true
      (snd (@call test_module (scripted [401; 401; 401; 200]) GET
              "/v2/balances" None true true w_demo))
    = (res2, w2)
    ∧ drop 6 (log w2)
      = EvRequest GET "https://devapi.thecurrencycloud.com/v2/balances"
          {[ "X-Auth-Token" := "tok+++" ]} d r :: rest.
Proof.
  destruct (@next_call_starts_from_left_configuration test_module
              (scripted [401; 401; 401; 200]) GET GET "/v2/balances"
              "/v2/balances" None None true true true true w_demo _
              "https://devapi.thecurrencycloud.com" w_demo_environment)
    as (evs1 & h1 & res2 & w2 & d & r & rest & Hw1 & Hcall2 & Hlog).
  { vm_compute. reflexivity. }
  eexists res2, w2, d, r, rest. split; [exact Hcall2|].
  rewrite Hlog. clear Hcall2 Hlog.
  vm_compute in Hw1. injection Hw1 as Hc Hh He. subst evs1. reflexivity.
Defined.
